(** * CustomAllocator and CustomContainer (src/main.cpp)

    A shallow embedding of the bump allocator [CustomAllocator<T>] and of
    the owning container [CustomContainer<T, Alloc>], with the properties
    of the specification stated and proved over it.

    Conventions.
    - [size_t] is [N] with the 64-bit wrap-around written out
      ([size_add], [size_mul]).
    - A pointer is a storage block and a byte offset into it.  Block [0]
      is the null block: [nullptr] is [Ptr 0 0] and an empty
      [std::vector] has [data() = 0].  Storage released by the vector is
      removed from the heap, so a pointer into it dangles and reading or
      writing through it has no result.
    - [std::vector<char>] is modelled by its storage block, its [size()]
      and its [capacity()].  How much capacity a reallocation reserves is
      left to the standard library; it is the parameter [recommend].
    - Calls of [p->~T()] are recorded as the list of pointers they were
      issued for. *)

From stdpp Require Import gmap strings list pretty.
From Stdlib Require Import Factorial.

Local Open Scope N_scope.

(** ** size_t *)

Definition SIZE_MOD : N := 2 ^ 64.

Definition size_add (a b : N) : N := (a + b) mod SIZE_MOD.
Definition size_mul (a b : N) : N := (a * b) mod SIZE_MOD.

(** ** Pointers *)

Record pointer := Ptr { p_block : nat; p_off : N }.

Definition nullptr : pointer := Ptr 0 0.

#[global] Instance pointer_eq_dec : EqDecision pointer.
Proof. solve_decision. Defined.

#[global] Instance pointer_countable : Countable pointer.
Proof.
  apply (inj_countable' (λ p, (p_block p, p_off p)) (λ bo, Ptr bo.1 bo.2)).
  by intros [].
Defined.

(** ** Growth policies of std::vector

    [recommend sz cap n] is the capacity reserved when a vector of size
    [sz] and capacity [cap] has to reallocate to hold [n] elements. *)

Definition exact_fit (sz cap n : N) : N := n.
Definition libstdcxx_check_len (sz cap n : N) : N := sz + N.max sz (n - sz).
Definition libcxx_recommend (sz cap n : N) : N := N.max (2 * cap) n.
Definition msvc_calculate_growth (sz cap n : N) : N := N.max (cap + cap / 2) n.

Section Model.

(** [T] is the element type, [sizeT] is [sizeof(T)]. *)
Context {T : Type}.
Variable sizeT : N.
Variable recommend : N → N → N → N.

(** ** The heap *)

Record storage := Storage { st_capacity : N; st_objects : gmap N T }.

Record heap := Heap { h_next : nat; h_blocks : gmap nat storage }.

Definition heap_empty : heap := Heap 1 ∅.

(** [new (p) T(value)]: needs live storage with room for a [T] at [p]. *)
Definition construct_at (h : heap) (p : pointer) (value : T) : option heap :=
  match h_blocks h !! p_block p with
  | Some st =>
      if p_off p + sizeT <=? st_capacity st
      then Some (Heap (h_next h)
                   (<[p_block p := Storage (st_capacity st)
                                     (<[p_off p := value]> (st_objects st))]>
                      (h_blocks h)))
      else None
  | None => None
  end.

(** [*p] *)
Definition load (h : heap) (p : pointer) : option T :=
  match h_blocks h !! p_block p with
  | Some st => st_objects st !! p_off p
  | None => None
  end.

(** ** std::vector<char> *)

Record vector_char := Vector { v_data : nat; v_size : N; v_capacity : N }.

Definition vector_empty : vector_char := Vector 0 0 0.

(** The objects that lie inside the first [n] bytes of a block. *)
Definition objects_below (h : heap) (b : nat) (n : N) : gmap N T :=
  match h_blocks h !! b with
  | Some st => filter (λ kv, kv.1 + sizeT ≤ n) (st_objects st)
  | None => ∅
  end.

(** [v.resize(n)]: within the capacity the storage stays where it is;
    beyond it the first [size()] bytes move to fresh storage of at least
    [n] bytes and the old storage is released.  The [char]s themselves
    are not modelled, only the objects of [T] placed in the storage. *)
Definition vector_resize (h : heap) (v : vector_char) (n : N)
  : heap * vector_char :=
  if n <=? v_capacity v then (h, Vector (v_data v) n (v_capacity v))
  else
    let cap := N.max n (recommend (v_size v) (v_capacity v) n) in
    let b := h_next h in
    (Heap (S b)
       (<[b := Storage cap (objects_below h (v_data v) (v_size v))]>
          (delete (v_data v) (h_blocks h))),
     Vector b n cap).

(** Copy construction: fresh storage of exactly [size()] bytes, as the
    common standard libraries reserve; an empty vector owns none. *)
Definition vector_copy (h : heap) (v : vector_char) : heap * vector_char :=
  if v_size v =? 0 then (h, vector_empty)
  else
    let b := h_next h in
    (Heap (S b)
       (<[b := Storage (v_size v) (objects_below h (v_data v) (v_size v))]>
          (h_blocks h)),
     Vector b (v_size v) (v_size v)).

(** Destruction releases the storage. *)
Definition vector_destroy (h : heap) (v : vector_char) : heap :=
  Heap (h_next h) (delete (v_data v) (h_blocks h)).

(** ** CustomAllocator<T> *)

Record CustomAllocator := Allocator {
  block_size : N;
  allocated : N;
  buffer : vector_char;
  allocated_objects : gset pointer
}.

(** [buffer.resize(buffer.size() + block_size * sizeof(T))] *)
Definition expand (h : heap) (a : CustomAllocator) : heap * CustomAllocator :=
  let '(h', v) :=
    vector_resize h (buffer a)
      (size_add (v_size (buffer a)) (size_mul (block_size a) sizeT)) in
  (h', Allocator (block_size a) (allocated a) v (allocated_objects a)).

(** [explicit CustomAllocator(size_t block_size)] *)
Definition CustomAllocator_new (h : heap) (bs : N) : heap * CustomAllocator :=
  expand h (Allocator bs 0 vector_empty ∅).

(** [CustomAllocator() : CustomAllocator(10)] *)
Definition CustomAllocator_default (h : heap) : heap * CustomAllocator :=
  CustomAllocator_new h 10.

(** [template <typename U> CustomAllocator(const CustomAllocator<U>&)]:
    only the block size of the other allocator is taken over. *)
Definition CustomAllocator_rebind (h : heap) (other_block_size : N)
  : heap * CustomAllocator :=
  expand h (Allocator other_block_size 0 vector_empty ∅).

(** The implicitly declared copy constructor, chosen over the template
    for an argument of the same type: member-wise copy. *)
Definition CustomAllocator_copy (h : heap) (a : CustomAllocator)
  : heap * CustomAllocator :=
  let '(h', v) := vector_copy h (buffer a) in
  (h', Allocator (block_size a) (allocated a) v (allocated_objects a)).

(** [~CustomAllocator()]: a destructor call for every tracked pointer
    (the order of an [unordered_set] is unspecified), then the buffer
    goes. *)
Definition CustomAllocator_destroy (h : heap) (a : CustomAllocator)
  : heap * list pointer :=
  (vector_destroy h (buffer a), elements (allocated_objects a)).

(** [T* allocate(std::size_t n)] *)
Definition allocate (h : heap) (a : CustomAllocator) (n : N)
  : heap * CustomAllocator * pointer :=
  if n =? 0 then (h, a, nullptr)
  else
    let bytes := size_mul n sizeT in
    let '(h1, a1) :=
      if v_size (buffer a) <? size_add (allocated a) bytes
      then expand h a else (h, a) in
    let result := Ptr (v_data (buffer a1)) (allocated a1) in
    (h1,
     Allocator (block_size a1) (size_add (allocated a1) bytes) (buffer a1)
       ({[result]} ∪ allocated_objects a1),
     result).

(** [void deallocate(T* p, std::size_t n)]: the new state and the
    destructor calls issued. *)
Definition deallocate (a : CustomAllocator) (p : pointer) (n : N)
  : CustomAllocator * list pointer :=
  if decide (p ∈ allocated_objects a)
  then (Allocator (block_size a) (allocated a) (buffer a)
          (allocated_objects a ∖ {[p]}),
        [p])
  else (a, []).

(** ** Sequences of allocator calls *)

Inductive call := Allocate (n : N) | Deallocate (p : pointer) (n : N).

Definition step (hs : heap * CustomAllocator) (c : call)
  : heap * CustomAllocator :=
  match c with
  | Allocate n => (allocate hs.1 hs.2 n).1
  | Deallocate p n => (hs.1, (deallocate hs.2 p n).1)
  end.

Definition run (hs : heap * CustomAllocator) (cs : list call)
  : heap * CustomAllocator :=
  foldl step hs cs.

(** The bytes a call asks for, and their sum over a sequence. *)
Definition call_bytes (c : call) : N :=
  match c with
  | Allocate n => n * sizeT
  | Deallocate _ _ => 0
  end.

Definition requested_bytes (cs : list call) : N :=
  foldr (λ c acc, call_bytes c + acc) 0 cs.



(** [p + k] for a [T* p] *)
Definition ptr_index (p : pointer) (k : N) : pointer :=
  Ptr (p_block p) (p_off p + k * sizeT).

(** ** Cursor and buffer length

    [block_size], [allocated] and [buffer.size()] evolve on their own:
    neither the heap nor the growth policy of the vector enters. *)

Definition dims (a : CustomAllocator) : N * N * N :=
  (block_size a, allocated a, v_size (buffer a)).

Definition allocate_dims (d : N * N * N) (n : N) : N * N * N :=
  let '(bs, al, sz) := d in
  if n =? 0 then d
  else
    let bytes := size_mul n sizeT in
    (bs, size_add al bytes,
     if sz <? size_add al bytes then size_add sz (size_mul bs sizeT) else sz).

Definition step_dims (d : N * N * N) (c : call) : N * N * N :=
  match c with
  | Allocate n => allocate_dims d n
  | Deallocate _ _ => d
  end.

(** Every tracked pointer lies below the cursor. *)
Definition live_below (a : CustomAllocator) : Prop :=
  ∀ q, q ∈ allocated_objects a → p_off q < allocated a.

(** No call of the sequence asks for more than [block_size] elements. *)
Definition within_block (bs : N) (cs : list call) : Prop :=
  Forall (λ c, match c with Allocate n => n ≤ bs | Deallocate _ _ => True end) cs.

(** The live blocks of a heap are numbered from 1 to below [h_next]. *)
Definition heap_wf (h : heap) : Prop :=
  map_Forall (λ b _, (0 < b < h_next h)%nat) (h_blocks h).

(** The buffer of the allocator is live storage of [capacity()] bytes or
    more, and [size()] is within [capacity()]. *)
Definition buffer_live (h : heap) (a : CustomAllocator) : Prop :=
  ∃ st, h_blocks h !! v_data (buffer a) = Some st ∧
        v_capacity (buffer a) ≤ st_capacity st ∧
        v_size (buffer a) ≤ v_capacity (buffer a).

End Model.

Arguments heap : clear implicits.
Arguments storage : clear implicits.
Arguments heap_empty {T}.

(** ** CustomContainer<T, CustomAllocator<T>> *)

Module Container.
Section Model.

Context {T : Type}.
Variable sizeT : N.
Variable recommend : N → N → N → N.
(** [operator<<] of [T] *)
Variable show : T → string.

Record CustomContainer := Container {
  alloc : CustomAllocator;
  data : list pointer
}.

(** [CustomContainer(Alloc alloc = Alloc()) : alloc(alloc)]: the member
    is a copy of the argument. *)
Definition CustomContainer_new (h : heap T) (a : CustomAllocator)
  : heap T * CustomContainer :=
  let '(h', a') := CustomAllocator_copy sizeT h a in
  (h', Container a' []).

(** [CustomContainer<T, CustomAllocator<T>> c;]: the default argument is
    a temporary allocator, destroyed once the member has been copied from
    it. *)
Definition CustomContainer_default (h : heap T) : heap T * CustomContainer :=
  let '(h1, tmp) := CustomAllocator_default sizeT recommend h in
  let '(h2, c) := CustomContainer_new h1 tmp in
  ((CustomAllocator_destroy h2 tmp).1, c).

(** [void add(const T& value)] *)
Definition add (h : heap T) (c : CustomContainer) (value : T)
  : option (heap T * CustomContainer) :=
  let '(h1, a1, p) := allocate sizeT recommend h (alloc c) 1 in
  match construct_at sizeT h1 p value with
  | Some h2 => Some (h2, Container a1 (data c ++ [p]))
  | None => None
  end.

(** Adding the values of a list one after the other. *)
Fixpoint add_all (h : heap T) (c : CustomContainer) (vs : list T)
  : option (heap T * CustomContainer) :=
  match vs with
  | [] => Some (h, c)
  | v :: vs' =>
      match add h c v with
      | Some (h', c') => add_all h' c' vs'
      | None => None
      end
  end.

(** [for (auto it = c.begin(); it != c.end(); ++it) ... **it]: the values
    behind the stored pointers, in the order of [data]. *)
Definition iterate (h : heap T) (c : CustomContainer) : option (list T) :=
  mapM (load h) (data c).

Definition newline : string := String (Ascii.ascii_of_nat 10) EmptyString.

(** What [display] writes for a list of values: each one followed by a
    space, then the line end. *)
Definition render (vs : list T) : string :=
  foldr (λ v out, show v +:+ " " +:+ out) newline vs.

(** [void display() const]: what is written to [std::cout]. *)
Definition display (h : heap T) (c : CustomContainer) : option string :=
  match iterate h c with
  | Some vs => Some (render vs)
  | None => None
  end.

Definition size (c : CustomContainer) : N := N.of_nat (length (data c)).

Definition empty (c : CustomContainer) : bool :=
  match data c with [] => true | _ => false end.

(** [~CustomContainer()]: [alloc.deallocate(p, 1)] for every stored
    pointer, in order; the destructor calls issued are collected. *)
Definition CustomContainer_destroy (c : CustomContainer)
  : CustomAllocator * list pointer :=
  foldl (λ acc p, let '(a, ds) := deallocate acc.1 p 1 in (a, acc.2 ++ ds))
        (alloc c, []) (data c).

(** The container [c] holds the values [vs] in the heap [h]: its
    pointers read back [vs] in order, they point into the allocator's
    buffer below the cursor, and the buffer is live storage of at least
    [buffer.size()] bytes, older than the next block of the heap. *)
Definition holds (h : heap T) (c : CustomContainer) (vs : list T) : Prop :=
  Forall2 (λ q v, load h q = Some v) (data c) vs ∧
  Forall (λ q, p_block q = v_data (buffer (alloc c)) ∧
               p_off q < allocated (alloc c)) (data c) ∧
  (v_data (buffer (alloc c)) < h_next h)%nat ∧
  ∃ st, h_blocks h !! v_data (buffer (alloc c)) = Some st ∧
        v_size (buffer (alloc c)) ≤ st_capacity st.

(** The buffer has room for [k] more elements without growing. *)
Definition room_for (c : CustomContainer) (k : nat) : Prop :=
  allocated (alloc c) + N.of_nat k * sizeT ≤ v_size (buffer (alloc c)).

(** The end of a container's life: the body of [~CustomContainer()],
    then the destructor of the member [alloc] ([data] holds plain
    pointers, its destruction issues no call). *)
Definition CustomContainer_delete (h : heap T) (c : CustomContainer)
  : heap T * list pointer :=
  let '(a, ds) := CustomContainer_destroy c in
  let '(h', ds') := CustomAllocator_destroy h a in
  (h', ds ++ ds').

(** The stored pointers are pairwise different, tracked by the
    allocator, and below its cursor. *)
Definition owns (c : CustomContainer) : Prop :=
  NoDup (data c) ∧
  Forall (λ q, q ∈ allocated_objects (alloc c) ∧
               p_off q < allocated (alloc c)) (data c).

End Model.

(** The demonstration of [main]: a default container of [int], filled
    with the given values and displayed. *)
Definition show_int (z : Z) : string := pretty z.

Definition fill_and_display (recommend : N → N → N → N) (vs : list Z)
  : option (string * N * bool) :=
  let '(h, c) := CustomContainer_default 4 recommend heap_empty in
  match add_all 4 recommend h c vs with
  | Some (h', c') =>
      match display show_int h' c' with
      | Some out => Some (out, size c', empty c')
      | None => None
      end
  | None => None
  end.

End Container.

(** ** The factorial loop of [main]

    [int factorial = 1; for (int j = 1; j <= i; ++j) factorial *= j;]
    with a 32-bit [int]; a product outside the range of [int] has no
    result. *)

Definition INT_MIN : Z := (- 2 ^ 31)%Z.
Definition INT_MAX : Z := (2 ^ 31 - 1)%Z.

Definition int_mul (x y : Z) : option Z :=
  if ((INT_MIN <=? x * y) && (x * y <=? INT_MAX))%Z then Some (x * y)%Z
  else None.

Definition factorial_loop (i : Z) : option Z :=
  foldl (λ factorial j, match factorial with
                        | Some f => int_mul f j
                        | None => None
                        end)
        (Some 1%Z) (seqZ 1 i).

(** ** Sample inputs *)

(** A fresh allocator of [int] with [block_size = 10], and one with
    [block_size = 0]. *)
Definition sample_allocator : heap Z * CustomAllocator :=
  CustomAllocator_new 4 exact_fit heap_empty 10.

Definition zero_allocator : heap Z * CustomAllocator :=
  CustomAllocator_new 4 exact_fit heap_empty 0.

Definition sample_calls : list call :=
  [Allocate 2; Deallocate (Ptr 1 0) 2; Allocate 0; Allocate 9].

(** The container of [main], still empty. *)
Definition sample_container : heap Z * Container.CustomContainer :=
  Container.CustomContainer_default 4 exact_fit heap_empty.

(** The values of [main], and one more. *)
Definition ten_values : list Z := [0; 1; 2; 3; 4; 5; 6; 7; 8; 9]%Z.
Definition eleven_values : list Z := (ten_values ++ [10])%Z.

(** * Properties of the allocator *)

Section AllocatorFacts.

Context {T : Type}.
Variable sizeT : N.
Variable recommend : N → N → N → N.

Implicit Types (h : heap T) (a : CustomAllocator) (n k m : N) (p q : pointer).
Implicit Types (cs : list call).

(** ** size_t arithmetic without overflow *)

Lemma size_add_small (x y : N) : x + y < SIZE_MOD → size_add x y = x + y.
Proof. intros Hlt. unfold size_add. by apply N.mod_small. Qed.

Lemma size_mul_small (x y : N) : x * y < SIZE_MOD → size_mul x y = x * y.
Proof. intros Hlt. unfold size_mul. by apply N.mod_small. Qed.

(** ** What each operation does to the fields *)

Lemma dims_fields (a : CustomAllocator) (bs al sz : N) :
  dims a = (bs, al, sz) →
  block_size a = bs ∧ allocated a = al ∧ v_size (buffer a) = sz.
Proof. unfold dims. by intros [= -> -> ->]. Qed.

Lemma vector_resize_size h (v : vector_char) n :
  v_size (vector_resize sizeT recommend h v n).2 = n.
Proof. unfold vector_resize. by destruct (n <=? v_capacity v). Qed.

Lemma expand_dims h a :
  dims (expand sizeT recommend h a).2 =
  (block_size a, allocated a,
   size_add (v_size (buffer a)) (size_mul (block_size a) sizeT)).
Proof.
  unfold expand, dims.
  pose proof (vector_resize_size h (buffer a)
    (size_add (v_size (buffer a)) (size_mul (block_size a) sizeT))) as Hsz.
  destruct (vector_resize _ _ _ _ _) as [h' v]. simpl in *. by rewrite Hsz.
Qed.

Lemma expand_allocated_objects h a :
  allocated_objects (expand sizeT recommend h a).2 = allocated_objects a.
Proof. unfold expand. by destruct (vector_resize _ _ _ _ _). Qed.

Lemma allocate_dims_spec h a n :
  dims (allocate sizeT recommend h a n).1.2 = allocate_dims sizeT (dims a) n.
Proof.
  unfold allocate, allocate_dims, dims at 2.
  destruct (n =? 0); [done|].
  destruct (v_size (buffer a) <? _).
  - pose proof (expand_dims h a) as Hd.
    destruct (expand _ _ _ _) as [h1 a1]. unfold dims in *. simpl in *.
    by injection Hd as -> -> ->.
  - done.
Qed.

Lemma allocate_allocated h a n :
  n ≠ 0 →
  allocated (allocate sizeT recommend h a n).1.2 =
  size_add (allocated a) (size_mul n sizeT).
Proof.
  intros Hn. pose proof (allocate_dims_spec h a n) as Hd.
  unfold allocate_dims, dims in Hd. apply N.eqb_neq in Hn. rewrite Hn in Hd.
  by injection Hd as _ ->.
Qed.

Lemma allocate_result_off h a n :
  n ≠ 0 → p_off (allocate sizeT recommend h a n).2 = allocated a.
Proof.
  intros Hn%N.eqb_neq. unfold allocate. rewrite Hn.
  destruct (v_size (buffer a) <? _); [|done].
  pose proof (expand_dims h a) as Hd.
  destruct (expand _ _ _ _) as [h1 a1]. unfold dims in Hd. simpl in *.
  by injection Hd as _ ->.
Qed.

Lemma allocate_allocated_objects h a n :
  n ≠ 0 →
  allocated_objects (allocate sizeT recommend h a n).1.2 =
  {[ (allocate sizeT recommend h a n).2 ]} ∪ allocated_objects a.
Proof.
  intros Hn%N.eqb_neq. unfold allocate. rewrite Hn.
  destruct (v_size (buffer a) <? _); [|done].
  pose proof (expand_allocated_objects h a) as Ho.
  destruct (expand _ _ _ _) as [h1 a1]. simpl in *. by rewrite Ho.
Qed.

Lemma deallocate_tracked a p n :
  p ∈ allocated_objects a →
  deallocate a p n =
  (Allocator (block_size a) (allocated a) (buffer a)
     (allocated_objects a ∖ {[p]}), [p]).
Proof. intros Hin. unfold deallocate. by rewrite decide_True. Qed.

Lemma deallocate_untracked a p n :
  p ∉ allocated_objects a → deallocate a p n = (a, []).
Proof. intros Hout. unfold deallocate. by rewrite decide_False. Qed.

Lemma deallocate_dims a p n : dims (deallocate a p n).1 = dims a.
Proof. unfold deallocate. by case_decide. Qed.

Lemma step_dims_spec (hs : heap T * CustomAllocator) (c : call) :
  dims (step sizeT recommend hs c).2 = step_dims sizeT (dims hs.2) c.
Proof.
  destruct c as [n|p n]; simpl.
  - apply allocate_dims_spec.
  - apply deallocate_dims.
Qed.

Lemma run_dims (hs : heap T * CustomAllocator) cs :
  dims (run sizeT recommend hs cs).2 = foldl (step_dims sizeT) (dims hs.2) cs.
Proof.
  revert hs. induction cs as [|c cs IH]; intros hs; [done|].
  simpl. rewrite IH. by rewrite step_dims_spec.
Qed.

Lemma CustomAllocator_new_dims h (bs : N) :
  dims (CustomAllocator_new sizeT recommend h bs).2 =
  (bs, 0, size_mul bs sizeT).
Proof.
  unfold CustomAllocator_new. rewrite expand_dims. simpl.
  unfold size_add, size_mul. rewrite N.add_0_l.
  by rewrite N.Div0.mod_mod.
Qed.

(** ** The cursor when nothing wraps around *)

Lemma allocate_allocated_no_wrap h a n :
  allocated a + n * sizeT < SIZE_MOD →
  allocated (allocate sizeT recommend h a n).1.2 = allocated a + n * sizeT.
Proof.
  intros Hlt. destruct (decide (n = 0)) as [->|Hn].
  - unfold allocate. simpl. lia.
  - rewrite allocate_allocated by done.
    rewrite size_mul_small by lia. by rewrite size_add_small.
Qed.

Lemma step_allocated_no_wrap (hs : heap T * CustomAllocator) (c : call) :
  allocated hs.2 + call_bytes sizeT c < SIZE_MOD →
  allocated (step sizeT recommend hs c).2 = allocated hs.2 + call_bytes sizeT c.
Proof.
  destruct c as [n|p n]; simpl; intros Hlt.
  - by apply allocate_allocated_no_wrap.
  - unfold deallocate. case_decide; simpl; lia.
Qed.

Lemma run_allocated_no_wrap (hs : heap T * CustomAllocator) cs :
  allocated hs.2 + requested_bytes sizeT cs < SIZE_MOD →
  allocated (run sizeT recommend hs cs).2 =
  allocated hs.2 + requested_bytes sizeT cs.
Proof.
  revert hs. induction cs as [|c cs IH]; intros hs Hlt; simpl in *.
  - lia.
  - rewrite IH; rewrite step_allocated_no_wrap; lia.
Qed.

(** ** Tracked pointers stay below the cursor *)



Lemma step_live_below (hs : heap T * CustomAllocator) (c : call) :
  0 < sizeT → allocated hs.2 + call_bytes sizeT c < SIZE_MOD →
  live_below hs.2 → live_below (step sizeT recommend hs c).2.
Proof.
  intros Hsz Hlt Hlive q Hq.
  rewrite step_allocated_no_wrap by done.
  destruct c as [n|p n]; simpl in *.
  - destruct (decide (n = 0)) as [->|Hn].
    { unfold allocate in Hq. simpl in Hq. specialize (Hlive q Hq). lia. }
    rewrite allocate_allocated_objects in Hq by done.
    apply elem_of_union in Hq as [->%elem_of_singleton|Hq].
    + rewrite allocate_result_off by done. nia.
    + specialize (Hlive q Hq). lia.
  - unfold deallocate in Hq. case_decide; simpl in Hq.
    + apply elem_of_difference in Hq as [Hq _]. specialize (Hlive q Hq). lia.
    + specialize (Hlive q Hq). lia.
Qed.

Lemma run_live_below (hs : heap T * CustomAllocator) cs :
  0 < sizeT → allocated hs.2 + requested_bytes sizeT cs < SIZE_MOD →
  live_below hs.2 → live_below (run sizeT recommend hs cs).2.
Proof.
  intros Hsz. revert hs.
  induction cs as [|c cs IH]; intros hs Hlt Hlive; [done|].
  simpl in *. apply IH.
  - rewrite step_allocated_no_wrap; lia.
  - apply step_live_below; [done|lia|done].
Qed.

Lemma CustomAllocator_new_fresh h (bs : N) :
  allocated (CustomAllocator_new sizeT recommend h bs).2 = 0 ∧
  allocated_objects (CustomAllocator_new sizeT recommend h bs).2 = ∅.
Proof.
  pose proof (CustomAllocator_new_dims h bs) as Hd. unfold dims in Hd.
  injection Hd as _ Hal _. split; [done|].
  unfold CustomAllocator_new. by rewrite expand_allocated_objects.
Qed.

Lemma CustomAllocator_new_live_below h (bs : N) :
  live_below (CustomAllocator_new sizeT recommend h bs).2.
Proof.
  intros q. destruct (CustomAllocator_new_fresh h bs) as [_ ->]. set_solver.
Qed.

(** ** Requests of at most one block

    The buffer keeps up with the cursor as long as no single request is
    larger than [block_size] elements. *)

Lemma allocate_within_buffer h a n :
  n ≤ block_size a →
  v_size (buffer a) + block_size a * sizeT < SIZE_MOD →
  allocated a ≤ v_size (buffer a) →
  allocated (allocate sizeT recommend h a n).1.2 ≤
  v_size (buffer (allocate sizeT recommend h a n).1.2).
Proof.
  intros Hn Hlt Hle.
  pose proof (allocate_dims_spec h a n) as Hd.
  unfold dims, allocate_dims in Hd.
  destruct (n =? 0); [injection Hd as _ -> ->; lia|].
  assert (n * sizeT ≤ block_size a * sizeT) as Hb by nia.
  rewrite size_mul_small in Hd by lia.
  rewrite size_add_small in Hd by lia.
  rewrite size_mul_small in Hd by lia.
  destruct (v_size (buffer a) <? _) eqn:Hcmp; injection Hd as _ -> ->.
  - rewrite size_add_small by lia. lia.
  - apply N.ltb_ge in Hcmp. lia.
Qed.

(** The invariant behind the growth property: the buffer length is a
    positive multiple of the block length [blk], it covers the cursor,
    and it is either the initial block or less than one block ahead of
    the cursor. *)
Lemma step_dims_capacity (bs al sz : N) (c : call) :
  let blk := bs * sizeT in
  let d' := step_dims sizeT (bs, al, sz) c in
  within_block bs [c] →
  al + call_bytes sizeT c + 2 * blk < SIZE_MOD →
  al ≤ sz → (∃ j, 0 < j ∧ sz = j * blk) → (sz = blk ∨ sz < al + blk) →
  d'.1.1 = bs ∧ d'.1.2 = al + call_bytes sizeT c ∧
  d'.1.2 ≤ d'.2 ∧ (∃ j, 0 < j ∧ d'.2 = j * blk) ∧
  (d'.2 = blk ∨ d'.2 < d'.1.2 + blk).
Proof.
  intros blk d' Hwb Hlt Hle [j [Hj Hsz]] Hmin. subst d'.
  destruct c as [n|p n]; simpl in *.
  2: { repeat split; [lia|lia|by exists j|done]. }
  apply Forall_cons in Hwb as [Hn _].
  destruct (n =? 0) eqn:Hn0.
  { apply N.eqb_eq in Hn0 as ->. simpl.
    repeat split; [lia|lia|by exists j|done]. }
  assert (n * sizeT ≤ blk) as Hb by (subst blk; nia).
  assert (sz ≤ al + blk) as Hsz' by lia.
  rewrite (size_mul_small n) by lia.
  rewrite (size_add_small al) by lia.
  rewrite (size_mul_small bs) by (fold blk; lia).
  fold blk. simpl.
  destruct (sz <? al + n * sizeT) eqn:Hcmp.
  - apply N.ltb_lt in Hcmp. rewrite size_add_small by lia.
    repeat split; [lia|..].
    + exists (j + 1). split; lia.
    + right. lia.
  - apply N.ltb_ge in Hcmp.
    repeat split; [lia|by exists j|lia].
Qed.

Lemma foldl_step_dims_capacity (bs : N) cs (al sz : N) :
  let blk := bs * sizeT in
  let d' := foldl (step_dims sizeT) (bs, al, sz) cs in
  within_block bs cs →
  al + requested_bytes sizeT cs + 2 * blk < SIZE_MOD →
  al ≤ sz → (∃ j, 0 < j ∧ sz = j * blk) → (sz = blk ∨ sz < al + blk) →
  d'.1.2 = al + requested_bytes sizeT cs ∧
  d'.1.2 ≤ d'.2 ∧ (∃ j, 0 < j ∧ d'.2 = j * blk) ∧
  (d'.2 = blk ∨ d'.2 < d'.1.2 + blk).
Proof.
  intros blk. revert al sz.
  induction cs as [|c cs IH]; intros al sz d' Hwb Hlt Hle Hmul Hmin; subst d'.
  { simpl in *. repeat split; [lia|done..]. }
  apply Forall_cons in Hwb as [Hc Hwb]. simpl in Hlt. simpl foldl.
  destruct (step_dims_capacity bs al sz c) as (Hbs & Hal & Hle' & Hmul' & Hmin');
    [by apply Forall_singleton|fold blk; lia|done..|].
  destruct (step_dims sizeT (bs, al, sz) c) as [[bs' al'] sz'].
  simpl in *. subst bs'.
  destruct (IH al' sz') as (IH1 & IH2 & IH3 & IH4); [done|lia|done..|].
  repeat split; [lia|done..].
Qed.

(** After any sequence of requests of at most one block each, started on
    a fresh allocator: the cursor is the number of bytes asked for, the
    buffer covers it, and the buffer length is the least positive
    multiple of the block length that does. *)
Lemma run_capacity_least_multiple h (bs : N) cs :
  let blk := bs * sizeT in
  let a := (run sizeT recommend (CustomAllocator_new sizeT recommend h bs) cs).2 in
  0 < blk → within_block bs cs →
  requested_bytes sizeT cs + 2 * blk < SIZE_MOD →
  allocated a = requested_bytes sizeT cs ∧
  requested_bytes sizeT cs ≤ v_size (buffer a) ∧
  (blk | v_size (buffer a)) ∧
  ∀ m, 0 < m → (blk | m) → requested_bytes sizeT cs ≤ m → v_size (buffer a) ≤ m.
Proof.
  intros blk a Hblk Hwb Hlt.
  pose proof (run_dims (CustomAllocator_new sizeT recommend h bs) cs) as Hd.
  rewrite CustomAllocator_new_dims in Hd.
  rewrite size_mul_small in Hd by (fold blk; lia). fold blk in Hd.
  destruct (foldl_step_dims_capacity bs cs 0 blk) as (H1 & H2 & [j [Hj H3]] & H4);
    [done|fold blk; lia|lia|exists 1; lia|by left|].
  fold blk in H1, H2, H3, H4. rewrite <- Hd in H1, H2, H3, H4.
  fold a in H1, H2, H3, H4. unfold dims in *. simpl in *.
  split; [lia|]. split; [lia|]. split; [by exists j|].
  intros m Hm [i ->] Hreq. rewrite H3. apply N.mul_le_mono_r.
  destruct H4 as [H4|H4].
  - assert (j * blk = 1 * blk) as Hj1 by lia.
    apply N.mul_cancel_r in Hj1; [|lia].
    destruct (decide (i = 0)) as [->|Hi]; lia.
  - assert (j < i + 1); [|lia].
    apply (N.mul_lt_mono_pos_r blk); lia.
Qed.

End AllocatorFacts.

(** * The claims about the allocator *)

Section AllocatorClaims.

Context {T : Type}.
Variable sizeT : N.
Variable recommend : N → N → N → N.

Implicit Types (h : heap T) (a : CustomAllocator) (n k m : N) (p q : pointer).
Implicit Types (cs : list call).



(** C5.  [allocate(0)] returns the null pointer and changes nothing:
    neither the cursor, nor the set of tracked pointers, nor anything
    else of the allocator or the heap. *)
Theorem allocate_zero_noop h a :
  let r := allocate sizeT recommend h a 0 in
  r.2 = nullptr ∧
  allocated r.1.2 = allocated a ∧
  allocated_objects r.1.2 = allocated_objects a ∧
  r.1 = (h, a).
Proof. done. Qed.

(** C6.  [deallocate(p, n)] of a tracked pointer removes it from the
    tracked set and issues one destructor call, for [p]; doing it again
    changes nothing and issues no destructor call. *)
Theorem deallocate_tracked_once a p n :
  let r := deallocate a p n in
  p ∈ allocated_objects a →
  allocated_objects r.1 = allocated_objects a ∖ {[p]} ∧
  (p ∉ allocated_objects r.1) ∧
  r.2 = [p] ∧
  deallocate r.1 p n = (r.1, []).
Proof.
  intros r Hin. subst r. rewrite (deallocate_tracked a p n Hin). simpl.
  assert (p ∉ allocated_objects a ∖ {[p]}) as Hout.
  { intros [_ Hne]%elem_of_difference. by apply Hne, elem_of_singleton. }
  repeat split; [done|].
  by apply deallocate_untracked.
Qed.

(** C7.  [deallocate(p, n)] of a pointer that is not tracked returns
    normally, leaves the whole allocator as it was and issues no
    destructor call. *)
Theorem deallocate_untracked_noop a p n :
  p ∉ allocated_objects a → deallocate a p n = (a, []).
Proof. apply deallocate_untracked. Qed.

(** C9 as amended.  The constructor stores the block size it is given,
    zero included, and grows the empty buffer once by
    [block_size * sizeof(T)] bytes: with [block_size = 0] the allocator
    exists, has [block_size = 0] and an empty buffer.  Only the
    constructor without arguments chooses the block size, 10. *)
Theorem CustomAllocator_new_keeps_block_size h (bs : N) :
  let a := (CustomAllocator_new sizeT recommend h bs).2 in
  (block_size a = bs ∧ allocated a = 0 ∧
   v_size (buffer a) = size_mul bs sizeT ∧ allocated_objects a = ∅) ∧
  (block_size (CustomAllocator_new sizeT recommend h 0).2 = 0 ∧
   v_size (buffer (CustomAllocator_new sizeT recommend h 0).2) = 0) ∧
  block_size (CustomAllocator_default sizeT recommend h).2 = 10.
Proof.
  intros a. subst a.
  pose proof (CustomAllocator_new_dims sizeT recommend h bs) as Hd.
  pose proof (CustomAllocator_new_dims sizeT recommend h 0) as Hd0.
  pose proof (CustomAllocator_new_dims sizeT recommend h 10) as Hd10.
  destruct (CustomAllocator_new_fresh sizeT recommend h bs) as [_ Hobj].
  apply dims_fields in Hd as (Hbs & Hal & Hsz).
  apply dims_fields in Hd0 as (Hbs0 & _ & Hsz0).
  apply dims_fields in Hd10 as (Hbs10 & _ & _).
  split; [done|]. split; [|done]. split; [done|].
  by rewrite Hsz0.
Qed.


End AllocatorClaims.

(** * An allocator of 4-byte elements with [block_size = 10] *)

Section IntAllocator.

Context {T : Type}.
Variable recommend : N → N → N → N.
Variable h : heap T.

Lemma run_new_dims (cs : list call) :
  dims (run 4 recommend (CustomAllocator_new 4 recommend h 10) cs).2 =
  foldl (step_dims 4) (10, 0, 40) cs.
Proof. by rewrite run_dims, CustomAllocator_new_dims. Qed.

(** C1, on the code.  A fresh allocator with [block_size = 10] has a
    buffer of 40 bytes; [allocate(21)] asks for 84 bytes, grows the
    buffer once, to 80 bytes, and moves the cursor to 84: past the end
    of the buffer. *)
Theorem allocate_oversized_cursor_past_buffer :
  let a0 := CustomAllocator_new 4 recommend h 10 in
  let a1 := (allocate 4 recommend a0.1 a0.2 21).1.2 in
  allocated a0.2 ≤ v_size (buffer a0.2) ∧
  allocated a1 = 84 ∧ v_size (buffer a1) = 80 ∧
  ¬ (allocated a1 ≤ v_size (buffer a1)).
Proof.
  intros a0 a1.
  assert (dims a0.2 = (10, 0, 40)) as Hd0
    by (unfold a0; by rewrite CustomAllocator_new_dims).
  assert (dims a1 = (10, 84, 80)) as Hd1.
  { unfold a1. rewrite allocate_dims_spec, Hd0. by vm_compute. }
  clearbody a1 a0.
  apply dims_fields in Hd0 as (_ & Hal0 & Hsz0).
  apply dims_fields in Hd1 as (_ & Hal1 & Hsz1).
  rewrite Hal0, Hsz0, Hal1, Hsz1. repeat split; lia.
Qed.

(** C2.  Scenario A: after construction the buffer has 40 bytes; after
    nine and after ten calls of [allocate(1)] it still has 40 bytes, the
    cursor being at 36 and at 40; the eleventh call grows it to 80 bytes
    and leaves the cursor at 44. *)
Theorem scenario_A_growth_at_eleventh_call :
  let a0 := CustomAllocator_new 4 recommend h 10 in
  let after (i : nat) := (run 4 recommend a0 (replicate i (Allocate 1))).2 in
  v_size (buffer a0.2) = 40 ∧
  (allocated (after 9%nat) = 36 ∧ v_size (buffer (after 9%nat)) = 40) ∧
  (allocated (after 10%nat) = 40 ∧ v_size (buffer (after 10%nat)) = 40) ∧
  (allocated (after 11%nat) = 44 ∧ v_size (buffer (after 11%nat)) = 80).
Proof.
  intros a0 after.
  assert (dims a0.2 = (10, 0, 40)) as Hd0
    by (unfold a0; by rewrite CustomAllocator_new_dims).
  assert (∀ i, dims (after i) = foldl (step_dims 4) (10, 0, 40)
                                  (replicate i (Allocate 1))) as Hd
    by (intros i; unfold after, a0; apply run_new_dims).
  clearbody after a0.
  apply dims_fields in Hd0 as (_ & _ & Hsz0).
  pose proof (Hd 9%nat) as Hd9. pose proof (Hd 10%nat) as Hd10.
  pose proof (Hd 11%nat) as Hd11. clear Hd.
  replace (foldl _ _ _) with (10, 36, 40) in Hd9 by (by vm_compute).
  replace (foldl _ _ _) with (10, 40, 40) in Hd10 by (by vm_compute).
  replace (foldl _ _ _) with (10, 44, 80) in Hd11 by (by vm_compute).
  apply dims_fields in Hd9 as (_ & Hal9 & Hsz9).
  apply dims_fields in Hd10 as (_ & Hal10 & Hsz10).
  apply dims_fields in Hd11 as (_ & Hal11 & Hsz11).
  rewrite Hsz0, Hal9, Hsz9, Hal10, Hsz10, Hal11, Hsz11.
  repeat split; reflexivity.
Qed.

(** C3, on the code.  The single call [allocate(21)] on a fresh
    allocator with [block_size = 10] asks for 84 bytes in total and
    leaves a buffer of 80 bytes: less than the bytes asked for, and not
    the 120 bytes that three blocks of 40 would give. *)
Theorem oversized_request_capacity_below_total :
  let cs := [Allocate 21] in
  let a := (run 4 recommend (CustomAllocator_new 4 recommend h 10) cs).2 in
  requested_bytes 4 cs = 84 ∧ v_size (buffer a) = 80 ∧
  ¬ (requested_bytes 4 cs ≤ v_size (buffer a)).
Proof.
  intros cs a.
  assert (dims a = (10, 84, 80)) as Hd
    by (unfold a, cs; rewrite run_new_dims; by vm_compute).
  assert (requested_bytes 4 cs = 84) as Hreq by (by vm_compute).
  clearbody a cs.
  apply dims_fields in Hd as (_ & _ & Hsz).
  rewrite Hreq, Hsz. repeat split; lia.
Qed.

End IntAllocator.

(** * Properties of the container *)

Section ContainerFacts.

Context {T : Type}.
Variable sizeT : N.
Variable recommend : N → N → N → N.
Variable show : T → string.

Implicit Types (h : heap T) (c : Container.CustomContainer) (vs : list T).

Lemma allocate_fits h (a : CustomAllocator) (n : N) :
  n ≠ 0 → allocated a + n * sizeT ≤ v_size (buffer a) →
  v_size (buffer a) < SIZE_MOD →
  allocate sizeT recommend h a n =
  (h,
   Allocator (block_size a) (allocated a + n * sizeT) (buffer a)
     ({[Ptr (v_data (buffer a)) (allocated a)]} ∪ allocated_objects a),
   Ptr (v_data (buffer a)) (allocated a)).
Proof.
  intros Hn%N.eqb_neq Hfit Hlt. unfold allocate. rewrite Hn.
  rewrite size_mul_small by lia. rewrite (size_add_small (allocated a)) by lia.
  rewrite (proj2 (N.ltb_ge _ _) Hfit).
  by rewrite size_add_small by lia.
Qed.

Lemma load_construct_at_eq h h2 (p : pointer) (v : T) :
  construct_at sizeT h p v = Some h2 → load h2 p = Some v.
Proof.
  unfold construct_at, load.
  destruct (h_blocks h !! p_block p) as [st|]; [|done].
  destruct (_ <=? _); [|done]. intros [= <-]. simpl.
  rewrite lookup_insert_eq. simpl. by rewrite lookup_insert_eq.
Qed.

Lemma load_construct_at_ne h h2 (p q : pointer) (v : T) :
  construct_at sizeT h p v = Some h2 → p_off q ≠ p_off p →
  load h2 q = load h q.
Proof.
  unfold construct_at, load.
  destruct (h_blocks h !! p_block p) as [st|] eqn:Hst; [|done].
  destruct (_ <=? _); [|done]. intros [= <-] Hne. simpl.
  destruct (decide (p_block q = p_block p)) as [Heq|Hb].
  - rewrite Heq, lookup_insert_eq, Hst. simpl. by rewrite lookup_insert_ne.
  - by rewrite lookup_insert_ne.
Qed.

Lemma construct_at_blocks h h2 (p : pointer) (v : T) (b : nat) (st : storage T) :
  construct_at sizeT h p v = Some h2 → h_blocks h !! b = Some st →
  ∃ st2, h_blocks h2 !! b = Some st2 ∧ st_capacity st2 = st_capacity st.
Proof.
  unfold construct_at.
  destruct (h_blocks h !! p_block p) as [st0|] eqn:Hst; [|done].
  destruct (_ <=? _); [|done]. intros [= <-] Hb. simpl.
  destruct (decide (p_block p = b)) as [<-|Hne].
  - rewrite lookup_insert_eq. eexists. split; [done|]. simpl. congruence.
  - rewrite lookup_insert_ne by done. by exists st.
Qed.

Lemma vector_resize_grow h (v : vector_char) (n : N) :
  v_capacity v < n →
  vector_resize sizeT recommend h v n =
  (Heap (S (h_next h))
     (<[h_next h := Storage (N.max n (recommend (v_size v) (v_capacity v) n))
                      (objects_below sizeT h (v_data v) (v_size v))]>
        (delete (v_data v) (h_blocks h))),
   Vector (h_next h) n (N.max n (recommend (v_size v) (v_capacity v) n))).
Proof.
  intros Hlt. unfold vector_resize. by rewrite (proj2 (N.leb_gt _ _) Hlt).
Qed.

Lemma construct_at_next h h2 (p : pointer) (v : T) :
  construct_at sizeT h p v = Some h2 → h_next h2 = h_next h.
Proof.
  unfold construct_at. destruct (h_blocks h !! p_block p); [|done].
  destruct (_ <=? _); [|done]. by intros [= <-].
Qed.

(** One [add] with room in the buffer. *)
Lemma add_holds h c vs (v : T) :
  0 < sizeT → v_size (buffer (Container.alloc c)) < SIZE_MOD →
  Container.holds h c vs → Container.room_for sizeT c 1 →
  ∃ h2 c2,
    Container.add sizeT recommend h c v = Some (h2, c2) ∧
    Container.holds h2 c2 (vs ++ [v]) ∧
    block_size (Container.alloc c2) = block_size (Container.alloc c) ∧
    allocated (Container.alloc c2) = allocated (Container.alloc c) + sizeT ∧
    buffer (Container.alloc c2) = buffer (Container.alloc c) ∧
    h_next h2 = h_next h ∧
    Container.data c2 =
      Container.data c ++
        [Ptr (v_data (buffer (Container.alloc c))) (allocated (Container.alloc c))].
Proof.
  intros Hsz Hlt (Hvals & Hptrs & Hold & st & Hst & Hcap) Hroom.
  unfold Container.room_for in Hroom. unfold Container.add.
  rewrite allocate_fits by lia. rewrite N.mul_1_l.
  destruct (construct_at sizeT h _ v) as [h2|] eqn:Hc; last first.
  { unfold construct_at in Hc. simpl in Hc. rewrite Hst in Hc.
    rewrite (proj2 (N.leb_le _ _)) in Hc by lia. done. }
  pose proof (construct_at_next _ _ _ _ Hc) as Hnext.
  eexists _, _. split; [done|]. simpl.
  split; [|by repeat split].
  split; [|split; [|split]].
  - apply Forall2_app.
    + apply Forall2_same_length_lookup. split; [by eapply Forall2_length|].
      intros i q w Hq Hw.
      rewrite (load_construct_at_ne _ _ _ _ _ Hc).
      * exact (Forall2_lookup_lr _ _ _ _ _ _ Hvals Hq Hw).
      * simpl. pose proof (Forall_lookup_1 _ _ _ _ Hptrs Hq) as [_ Hoff]. lia.
    + constructor; [|constructor]. by eapply load_construct_at_eq.
  - apply Forall_app. split.
    + eapply Forall_impl; [done|]. simpl. intros q [Hb Hoff]. split; [done|lia].
    + apply Forall_singleton. simpl. split; [done|lia].
  - simpl. by rewrite Hnext.
  - simpl. destruct (construct_at_blocks _ _ _ _ _ _ Hc Hst) as (st2 & Hst2 & Hcap2).
    exists st2. split; [done|]. lia.
Qed.

(** Any number of [add]s with room in the buffer. *)
Lemma add_all_holds vs h c (ws : list T) :
  0 < sizeT → v_size (buffer (Container.alloc c)) < SIZE_MOD →
  Container.holds h c ws → Container.room_for sizeT c (length vs) →
  ∃ h2 c2,
    Container.add_all sizeT recommend h c vs = Some (h2, c2) ∧
    Container.holds h2 c2 (ws ++ vs) ∧
    block_size (Container.alloc c2) = block_size (Container.alloc c) ∧
    allocated (Container.alloc c2) =
      allocated (Container.alloc c) + N.of_nat (length vs) * sizeT ∧
    buffer (Container.alloc c2) = buffer (Container.alloc c) ∧
    h_next h2 = h_next h ∧
    length (Container.data c2) = (length (Container.data c) + length vs)%nat.
Proof.
  intros Hsz. revert h c ws.
  induction vs as [|v vs IH]; intros h c ws Hlt Hholds Hroom.
  { exists h, c. rewrite app_nil_r. simpl.
    split; [done|]. split; [done|]. split; [done|]. split; [lia|].
    split; [done|]. split; [done|lia]. }
  unfold Container.room_for in Hroom. simpl in Hroom.
  destruct (add_holds h c ws v)
    as (h1 & c1 & Hadd & Hholds1 & Hbs & Hal & Hbuf & Hnext & Hdata); [done..| |].
  { unfold Container.room_for. simpl. lia. }
  destruct (IH h1 c1 (ws ++ [v]))
    as (h2 & c2 & Hall & Hholds2 & Hbs2 & Hal2 & Hbuf2 & Hnext2 & Hlen);
    [by rewrite Hbuf|done| |].
  { unfold Container.room_for. rewrite Hal, Hbuf. lia. }
  exists h2, c2. simpl. rewrite Hadd. split; [done|].
  rewrite <- app_assoc in Hholds2. split; [done|].
  split; [congruence|]. split; [lia|]. split; [congruence|].
  split; [congruence|].
  rewrite Hlen, Hdata, length_app. simpl. lia.
Qed.

Lemma add_all_app h c vs ws :
  Container.add_all sizeT recommend h c (vs ++ ws) =
  match Container.add_all sizeT recommend h c vs with
  | Some (h1, c1) => Container.add_all sizeT recommend h1 c1 ws
  | None => None
  end.
Proof.
  revert h c. induction vs as [|v vs IH]; intros h c; simpl; [done|].
  destruct (Container.add sizeT recommend h c v) as [[h1 c1]|]; [apply IH|done].
Qed.

(** One [add] without room, on a buffer filled to its capacity: the
    buffer moves to a new block and every pointer the container already
    holds is left dangling. *)
Lemma add_grows_dangles h c vs (v : T) :
  0 < sizeT →
  v_size (buffer (Container.alloc c)) + block_size (Container.alloc c) * sizeT
    < SIZE_MOD →
  Container.holds h c vs →
  allocated (Container.alloc c) = v_size (buffer (Container.alloc c)) →
  v_capacity (buffer (Container.alloc c)) = v_size (buffer (Container.alloc c)) →
  0 < block_size (Container.alloc c) →
  ∃ h2 c2,
    Container.add sizeT recommend h c v = Some (h2, c2) ∧
    Container.data c2 = Container.data c ++ [Ptr (h_next h) (allocated (Container.alloc c))] ∧
    (∀ q, q ∈ Container.data c → load h2 q = None).
Proof.
  intros Hsz Hlt (Hvals & Hptrs & Hold & st & Hst & Hcap) Hfull Hcapv Hbs.
  assert (sizeT ≤ block_size (Container.alloc c) * sizeT) as Hblk by nia.
  unfold Container.add, allocate. simpl (1 =? 0).
  rewrite (size_mul_small 1) by lia. rewrite N.mul_1_l.
  rewrite (size_add_small (allocated _)) by lia.
  rewrite (proj2 (N.ltb_lt _ _)) by lia.
  unfold expand. rewrite (size_mul_small (block_size _)) by lia.
  rewrite (size_add_small (v_size _)) by lia.
  rewrite vector_resize_grow by lia.
  cbn [block_size allocated buffer allocated_objects v_data].
  unfold construct_at.
  cbn [h_blocks h_next p_block p_off].
  rewrite lookup_insert_eq. cbn [st_capacity st_objects].
  rewrite (proj2 (N.leb_le _ _)) by lia.
  eexists _, _. split; [done|]. split; [done|].
  intros q Hq. unfold load. cbn [h_blocks].
  apply (proj1 (Forall_forall _ _) Hptrs) in Hq as [Hb _].
  rewrite insert_insert_eq. rewrite lookup_insert_ne by lia.
  rewrite Hb. by rewrite lookup_delete_eq.
Qed.

Lemma holds_iterate h c vs :
  Container.holds h c vs → Container.iterate h c = Some vs.
Proof. intros (Hvals & _). unfold Container.iterate. by apply mapM_Some. Qed.

Lemma CustomContainer_default_holds h :
  0 < sizeT → 10 * sizeT < SIZE_MOD →
  let hc := Container.CustomContainer_default sizeT recommend h in
  Container.holds hc.1 hc.2 [] ∧ Container.data hc.2 = [] ∧
  block_size (Container.alloc hc.2) = 10 ∧
  allocated (Container.alloc hc.2) = 0 ∧
  buffer (Container.alloc hc.2) =
    Vector (S (h_next h)) (10 * sizeT) (10 * sizeT).
Proof.
  intros Hsz Hlt.
  unfold Container.CustomContainer_default, CustomAllocator_default,
    CustomAllocator_new, expand.
  cbn [block_size allocated buffer allocated_objects v_size vector_empty].
  assert (size_add 0 (size_mul 10 sizeT) = 10 * sizeT) as ->.
  { rewrite size_mul_small by done. by rewrite size_add_small by lia. }
  rewrite vector_resize_grow by (simpl; lia).
  unfold Container.CustomContainer_new, CustomAllocator_copy, vector_copy.
  cbn [block_size allocated buffer allocated_objects v_size v_data v_capacity
       vector_empty].
  rewrite (proj2 (N.eqb_neq _ _)) by lia.
  unfold CustomAllocator_destroy, vector_destroy.
  cbn [block_size allocated buffer allocated_objects v_size v_data v_capacity
       h_next h_blocks fst snd Container.alloc Container.data].
  split; [|done]. split; [constructor|]. split; [constructor|].
  cbn [block_size allocated buffer allocated_objects v_size v_data v_capacity
       h_next h_blocks fst snd Container.alloc Container.data].
  split; [lia|]. eexists. split.
  - rewrite lookup_delete_ne by lia. by rewrite lookup_insert_eq.
  - simpl. lia.
Qed.

(** A default container takes up to ten values without growing, and
    then reads them back and displays them in the order of insertion. *)
Lemma add_all_insertion_order h vs :
  0 < sizeT → 10 * sizeT < SIZE_MOD → (length vs ≤ 10)%nat →
  let hc := Container.CustomContainer_default sizeT recommend h in
  ∃ h2 c2,
    Container.add_all sizeT recommend hc.1 hc.2 vs = Some (h2, c2) ∧
    Container.iterate h2 c2 = Some vs ∧
    Container.display show h2 c2 = Some (Container.render show vs) ∧
    Container.size c2 = N.of_nat (length vs) ∧
    Container.empty c2 = bool_decide (vs = []).
Proof.
  intros Hsz Hlt Hlen hc.
  destruct (CustomContainer_default_holds h Hsz Hlt)
    as (Hholds & Hdata & _ & Hal & Hbuf).
  fold hc in Hholds, Hdata, Hal, Hbuf. clearbody hc.
  destruct (add_all_holds vs hc.1 hc.2 [])
    as (h2 & c2 & Hall & Hholds2 & _ & _ & _ & _ & Hlen2);
    [done|rewrite Hbuf; simpl; lia|done| |].
  { unfold Container.room_for. rewrite Hal, Hbuf. simpl. nia. }
  exists h2, c2. simpl in Hholds2.
  pose proof (holds_iterate _ _ _ Hholds2) as Hit.
  split; [done|]. split; [done|]. split; [|split].
  - unfold Container.display. by rewrite Hit.
  - unfold Container.size. rewrite Hlen2, Hdata. simpl. done.
  - unfold Container.empty. rewrite Hdata in Hlen2. simpl in Hlen2.
    destruct (Container.data c2), vs; simpl in *; try done.
Qed.

(** The eleventh [add] on a default container: it returns, but the ten
    elements stored before it can no longer be read, so neither
    iteration nor [display] has a result. *)
Lemma eleventh_add_dangles h vs (v : T) :
  0 < sizeT → 20 * sizeT < SIZE_MOD → length vs = 10%nat →
  let hc := Container.CustomContainer_default sizeT recommend h in
  ∃ h2 c2,
    Container.add_all sizeT recommend hc.1 hc.2 (vs ++ [v]) = Some (h2, c2) ∧
    Container.size c2 = 11 ∧
    Container.iterate h2 c2 = None ∧
    Container.display show h2 c2 = None.
Proof.
  intros Hsz Hlt Hlen hc.
  destruct (CustomContainer_default_holds h Hsz ltac:(lia))
    as (Hholds & Hdata & Hbs & Hal & Hbuf).
  fold hc in Hholds, Hdata, Hbs, Hal, Hbuf. clearbody hc.
  destruct (add_all_holds vs hc.1 hc.2 [])
    as (h1 & c1 & Hall & Hholds1 & Hbs1 & Hal1 & Hbuf1 & _ & Hlen1);
    [done|rewrite Hbuf; simpl; lia|done| |].
  { unfold Container.room_for. rewrite Hal, Hbuf, Hlen. simpl. lia. }
  rewrite Hbs in Hbs1. rewrite Hal, Hlen in Hal1. rewrite Hbuf in Hbuf1.
  rewrite Hdata, Hlen in Hlen1. simpl in Hholds1, Hal1, Hlen1.
  destruct (add_grows_dangles h1 c1 vs v) as (h2 & c2 & Hadd & Hdata2 & Hdead);
    [done|rewrite Hbuf1, Hbs1; simpl; lia|done|rewrite Hal1, Hbuf1; simpl; lia
    |by rewrite Hbuf1|rewrite Hbs1; lia|].
  exists h2, c2. rewrite add_all_app, Hall. simpl. rewrite Hadd.
  assert (Container.iterate h2 c2 = None) as Hit.
  { unfold Container.iterate.
    destruct (mapM (load h2) (Container.data c2)) as [ws|] eqn:Hm; [|done].
    apply mapM_Some in Hm. rewrite Hdata2 in Hm.
    destruct (Container.data c1) as [|q qs] eqn:Hd1; [done|].
    apply Forall2_cons_inv_l in Hm as (w & ws' & Hw & _ & _).
    rewrite Hdead in Hw; [done|by left]. }
  split; [done|]. split.
  - unfold Container.size. rewrite Hdata2, length_app, Hlen1. done.
  - split; [done|]. unfold Container.display. by rewrite Hit.
Qed.

End ContainerFacts.

(** * Concrete runs *)

(** C9, against the claim as stated: [CustomAllocator<int>(0)] is
    constructed, keeps [block_size = 0], and serves [allocate(1)] with
    [block_size] still [0] and a buffer that never grows. *)
Lemma zero_block_size_accepted :
  ¬ (0 < block_size zero_allocator.2) ∧
  block_size (allocate 4 exact_fit zero_allocator.1 zero_allocator.2 1).1.2 = 0 ∧
  v_size (buffer (allocate 4 exact_fit zero_allocator.1 zero_allocator.2 1).1.2) = 0.
Proof. by vm_compute. Qed.



Lemma deallocate_tracked_once_witness :
  Ptr 1 0 ∈ allocated_objects
    (allocate 4 exact_fit sample_allocator.1 sample_allocator.2 1).1.2 ∧
  let a := (allocate 4 exact_fit sample_allocator.1 sample_allocator.2 1).1.2 in
  let r := deallocate a (Ptr 1 0) 1 in
  allocated_objects r.1 = allocated_objects a ∖ {[Ptr 1 0]} ∧
  (Ptr 1 0 ∉ allocated_objects r.1) ∧
  r.2 = [Ptr 1 0] ∧
  deallocate r.1 (Ptr 1 0) 1 = (r.1, []).
Proof.
  assert (Ptr 1 0 ∈ allocated_objects
    (allocate 4 exact_fit sample_allocator.1 sample_allocator.2 1).1.2) as Hin
    by (by vm_compute).
  split; [exact Hin|].
  exact (deallocate_tracked_once _ (Ptr 1 0) 1 Hin).
Defined.

Lemma deallocate_untracked_noop_witness :
  (Ptr 7 4 ∉ allocated_objects sample_allocator.2) ∧
  deallocate sample_allocator.2 (Ptr 7 4) 1 = (sample_allocator.2, []).
Proof.
  assert (Ptr 7 4 ∉ allocated_objects sample_allocator.2) as Hout
    by (by vm_compute).
  split; [exact Hout|].
  exact (deallocate_untracked_noop sample_allocator.2 (Ptr 7 4) 1 Hout).
Defined.



(** Scenario B: the ten values of [main] in a default container of
    [int], whatever the heap it is created in and however the standard
    library grows a vector. *)
Lemma scenario_B_display (recommend : N → N → N → N) (h : heap Z) :
  let hc := Container.CustomContainer_default 4 recommend h in
  ∃ h2 c2,
    Container.add_all 4 recommend hc.1 hc.2 ten_values = Some (h2, c2) ∧
    Container.iterate h2 c2 = Some ten_values ∧
    Container.display Container.show_int h2 c2 =
      Some ("0 1 2 3 4 5 6 7 8 9 " +:+ Container.newline) ∧
    Container.size c2 = 10 ∧
    Container.empty c2 = false.
Proof.
  intros hc.
  destruct (add_all_insertion_order 4 recommend Container.show_int h ten_values)
    as (h2 & c2 & Hall & Hit & Hdisp & Hsize & Hempty);
    [lia|by vm_compute|simpl; lia|].
  exists h2, c2. by repeat split.
Qed.

(** The same run, and the run with eleven values, evaluated for the
    growth policies of the common standard libraries. *)
Lemma main_container_output :
  let expected :=
    Some ("0 1 2 3 4 5 6 7 8 9 " +:+ Container.newline, 10, false) in
  (Container.fill_and_display exact_fit ten_values = expected ∧
   Container.fill_and_display libstdcxx_check_len ten_values = expected ∧
   Container.fill_and_display libcxx_recommend ten_values = expected ∧
   Container.fill_and_display msvc_calculate_growth ten_values = expected) ∧
  (Container.fill_and_display exact_fit eleven_values = None ∧
   Container.fill_and_display libstdcxx_check_len eleven_values = None ∧
   Container.fill_and_display libcxx_recommend eleven_values = None ∧
   Container.fill_and_display msvc_calculate_growth eleven_values = None).
Proof. by vm_compute. Qed.

(** C8, on the code.  The eleventh [add] on a default container of [int]
    makes the allocator grow its buffer; the vector moves its contents
    to new storage and releases the old one, while [data] still holds
    the ten pointers into it.  All eleven calls of [add] return and
    [size()] is 11, but neither iteration nor [display] can read the
    first ten elements any more: they have no result, where insertion
    order would give the eleven values back. *)
Theorem display_after_growth_has_no_result
    (recommend : N → N → N → N) (h : heap Z) :
  let hc := Container.CustomContainer_default 4 recommend h in
  ∃ h2 c2,
    Container.add_all 4 recommend hc.1 hc.2 eleven_values = Some (h2, c2) ∧
    Container.size c2 = 11 ∧
    Container.iterate h2 c2 = None ∧
    Container.display Container.show_int h2 c2 = None.
Proof.
  apply (eleventh_add_dangles 4 recommend Container.show_int h ten_values 10%Z);
    [lia|by vm_compute|done].
Qed.

(** * Further properties of the allocator *)

Section AllocatorLifetime.

Context {T : Type}.
Variable sizeT : N.
Variable recommend : N → N → N → N.

Implicit Types (h : heap T) (a : CustomAllocator) (n k m : N) (p q : pointer).
Implicit Types (cs : list call).

Lemma run_app (hs : heap T * CustomAllocator) cs1 cs2 :
  run sizeT recommend hs (cs1 ++ cs2) =
  run sizeT recommend (run sizeT recommend hs cs1) cs2.
Proof. unfold run. apply foldl_app. Qed.

Lemma requested_bytes_app cs1 cs2 :
  requested_bytes sizeT (cs1 ++ cs2) =
  requested_bytes sizeT cs1 + requested_bytes sizeT cs2.
Proof. induction cs1 as [|c cs1 IH]; simpl; [done|]. rewrite IH. lia. Qed.

Lemma run_block_size (hs : heap T * CustomAllocator) cs :
  block_size (run sizeT recommend hs cs).2 = block_size hs.2.
Proof.
  revert hs. induction cs as [|c cs IH]; intros hs; [done|].
  simpl. rewrite IH.
  pose proof (step_dims_spec sizeT recommend hs c) as Hd.
  destruct c as [n|p n]; simpl in *.
  - unfold dims, allocate_dims in Hd. destruct (n =? 0); by injection Hd.
  - unfold dims in Hd. by injection Hd.
Qed.

(** X1.  On an allocator used since its construction the cursor is the
    sum of the bytes asked for, whatever was deallocated in between, the
    block size is the one given to the constructor, and every tracked
    pointer lies below the cursor; the bytes asked for are assumed not
    to wrap around [size_t]. *)
Theorem cursor_counts_requested_bytes h (bs : N) cs :
  let a := (run sizeT recommend (CustomAllocator_new sizeT recommend h bs) cs).2 in
  0 < sizeT → requested_bytes sizeT cs < SIZE_MOD →
  block_size a = bs ∧
  allocated a = requested_bytes sizeT cs ∧
  live_below a.
Proof.
  intros a Hsz Hlt.
  destruct (CustomAllocator_new_fresh sizeT recommend h bs) as [Hal0 _].
  pose proof (CustomAllocator_new_dims sizeT recommend h bs) as Hd.
  apply dims_fields in Hd as (Hbs & _ & _).
  split; [|split].
  - unfold a. by rewrite run_block_size.
  - unfold a. rewrite run_allocated_no_wrap; rewrite Hal0; lia.
  - unfold a. apply run_live_below; [done|rewrite Hal0; lia|].
    apply CustomAllocator_new_live_below.
Qed.

(** X2.  After requests of at most one block each on a fresh allocator,
    [buffer.size()] is [block_size * sizeof(T)] times the number of
    blocks needed for the bytes asked for, and one block if nothing was
    asked for. *)
Theorem run_capacity_formula h (bs : N) cs :
  let blk := bs * sizeT in
  let a := (run sizeT recommend (CustomAllocator_new sizeT recommend h bs) cs).2 in
  0 < blk → within_block bs cs →
  requested_bytes sizeT cs + 2 * blk < SIZE_MOD →
  v_size (buffer a) =
  blk * N.max 1 ((requested_bytes sizeT cs + blk - 1) / blk).
Proof.
  intros blk a Hblk Hwb Hlt.
  pose proof (run_dims sizeT recommend
                (CustomAllocator_new sizeT recommend h bs) cs) as Hd.
  rewrite CustomAllocator_new_dims in Hd.
  rewrite size_mul_small in Hd by (fold blk; lia). fold blk in Hd.
  destruct (foldl_step_dims_capacity sizeT bs cs 0 blk)
    as (H1 & H2 & [j [Hj H3]] & H4);
    [done|fold blk; lia|lia|exists 1; lia|by left|].
  fold blk in H1, H2, H3, H4. rewrite <- Hd in H1, H2, H3, H4.
  fold a in H1, H2, H3, H4. unfold dims in *. simpl in *.
  set (B := requested_bytes sizeT cs) in *.
  rewrite H3, (N.mul_comm j blk). f_equal.
  destruct H4 as [H4|H4].
  - assert (j * blk = 1 * blk) as Hj1 by lia.
    apply N.mul_cancel_r in Hj1; [|lia]. subst j.
    assert ((B + blk - 1) / blk ≤ 1); [|lia].
    apply N.lt_succ_r. apply N.Div0.div_lt_upper_bound. lia.
  - assert ((B + blk - 1) / blk = j) as ->; [|lia].
    symmetry. apply (N.div_unique _ _ _ (B + blk - 1 - j * blk)); lia.
Qed.

(** ** The buffer stays live storage *)

Lemma vector_resize_live h (a : CustomAllocator) (n : N) :
  buffer_live h a →
  let r := vector_resize sizeT recommend h (buffer a) n in
  buffer_live r.1
    (Allocator (block_size a) (allocated a) r.2 (allocated_objects a)).
Proof.
  intros (st & Hst & Hcap & Hsz). unfold vector_resize, buffer_live.
  destruct (n <=? v_capacity (buffer a)) eqn:Hn; simpl.
  - apply N.leb_le in Hn. exists st. by repeat split.
  - eexists. rewrite lookup_insert_eq. split; [done|]. simpl. split; lia.
Qed.

Lemma expand_live h a :
  buffer_live h a → buffer_live (expand sizeT recommend h a).1
                                (expand sizeT recommend h a).2.
Proof.
  intros Hlive. unfold expand.
  pose proof (vector_resize_live h a
    (size_add (v_size (buffer a)) (size_mul (block_size a) sizeT)) Hlive) as H.
  by destruct (vector_resize _ _ _ _ _).
Qed.

Lemma allocate_live h a n :
  buffer_live h a →
  buffer_live (allocate sizeT recommend h a n).1.1
              (allocate sizeT recommend h a n).1.2.
Proof.
  intros Hlive. unfold allocate. destruct (n =? 0); [done|].
  destruct (v_size (buffer a) <? _); [|done].
  pose proof (expand_live h a Hlive) as H.
  by destruct (expand _ _ _ _).
Qed.

Lemma run_live (hs : heap T * CustomAllocator) cs :
  buffer_live hs.1 hs.2 →
  buffer_live (run sizeT recommend hs cs).1 (run sizeT recommend hs cs).2.
Proof.
  revert hs. induction cs as [|c cs IH]; intros hs Hlive; [done|].
  simpl. apply IH. destruct c as [n|p n]; simpl.
  - by apply allocate_live.
  - unfold deallocate. by case_decide.
Qed.

Lemma CustomAllocator_new_live h (bs : N) :
  0 < bs * sizeT < SIZE_MOD →
  buffer_live (CustomAllocator_new sizeT recommend h bs).1
              (CustomAllocator_new sizeT recommend h bs).2.
Proof.
  intros Hblk. unfold CustomAllocator_new, expand. simpl.
  rewrite size_mul_small by lia. rewrite size_add_small by lia.
  rewrite N.add_0_l. rewrite vector_resize_grow by (simpl; lia).
  unfold buffer_live. simpl. eexists. rewrite lookup_insert_eq.
  split; [done|]. simpl. split; lia.
Qed.

Lemma allocate_result_block h a n :
  n ≠ 0 →
  p_block (allocate sizeT recommend h a n).2 =
  v_data (buffer (allocate sizeT recommend h a n).1.2).
Proof.
  intros Hn%N.eqb_neq. unfold allocate. rewrite Hn.
  destruct (v_size (buffer a) <? _); [|done].
  by destruct (expand _ _ _ _).
Qed.

(** X3.  On an allocator used since its construction with requests of
    at most one block each, with [sizeof(T) > 0] and the bytes requested
    so far plus [n * sizeof(T)] plus two blocks of
    [block_size * sizeof(T)] bytes staying below [2^64] (so that neither
    the cursor nor the size of the buffer wraps around [size_t]),
    [allocate(n)] with [0 < n <= block_size] returns usable storage: the
    span of [n] elements lies inside the buffer, which is live, so an
    object can be constructed in every one of the [n] slots. *)
Theorem allocate_returns_usable_storage h (bs : N) cs n k (v : T) :
  let blk := bs * sizeT in
  let st := run sizeT recommend (CustomAllocator_new sizeT recommend h bs) cs in
  let r := allocate sizeT recommend st.1 st.2 n in
  0 < sizeT → within_block bs cs → 0 < n ≤ bs → k < n →
  requested_bytes sizeT cs + n * sizeT + 2 * blk < SIZE_MOD →
  p_block r.2 = v_data (buffer r.1.2) ∧
  p_off r.2 + n * sizeT ≤ v_size (buffer r.1.2) ∧
  is_Some (construct_at sizeT r.1.1 (ptr_index sizeT r.2 k) v).
Proof.
  intros blk st r Hsz Hwb Hn Hk Hlt.
  assert (n ≠ 0) as Hn0 by lia.
  assert (0 < blk) as Hblk by (unfold blk; nia).
  assert (buffer_live r.1.1 r.1.2) as (sto & Hsto & Hcap & Hsize).
  { unfold r. apply allocate_live. unfold st. apply run_live.
    apply CustomAllocator_new_live. fold blk. lia. }
  pose proof (allocate_result_block st.1 st.2 n Hn0) as Hblock. fold r in Hblock.
  pose proof (allocate_result_off sizeT recommend st.1 st.2 n Hn0) as Hoff.
  fold r in Hoff.
  pose proof (run_dims sizeT recommend
                (CustomAllocator_new sizeT recommend h bs)
                (cs ++ [Allocate n])) as Hd.
  rewrite CustomAllocator_new_dims in Hd.
  rewrite size_mul_small in Hd by (fold blk; lia). fold blk in Hd.
  destruct (foldl_step_dims_capacity sizeT bs (cs ++ [Allocate n]) 0 blk)
    as (H1 & H2 & _ & _).
  { apply Forall_app. split; [done|]. apply Forall_singleton. lia. }
  { rewrite requested_bytes_app. simpl. fold blk. lia. }
  { lia. }
  { exists 1. lia. }
  { by left. }
  fold blk in H1, H2. rewrite <- Hd in H1, H2.
  rewrite run_app in H1, H2. fold st in H1, H2. simpl in H1, H2.
  fold r in H1, H2. rewrite requested_bytes_app in H1. simpl in H1.
  assert (allocated st.2 = requested_bytes sizeT cs) as Hal.
  { unfold st. rewrite run_allocated_no_wrap;
      destruct (CustomAllocator_new_fresh sizeT recommend h bs) as [-> _]; lia. }
  split; [done|]. split; [lia|].
  unfold construct_at, ptr_index. simpl. rewrite Hblock, Hsto.
  assert ((k + 1) * sizeT ≤ n * sizeT) as Hk' by nia.
  rewrite (proj2 (N.leb_le _ _)) by lia. by eexists.
Qed.

(** X4.  Calls whose requests fit into what is left of the buffer leave
    the heap and the buffer exactly as they are: nothing grows and
    nothing moves, so pointers handed out before stay valid. *)
Theorem requests_with_room_stay_in_place h a cs :
  allocated a + requested_bytes sizeT cs ≤ v_size (buffer a) →
  v_size (buffer a) < SIZE_MOD →
  (run sizeT recommend (h, a) cs).1 = h ∧
  buffer (run sizeT recommend (h, a) cs).2 = buffer a.
Proof.
  revert a. induction cs as [|c cs IH]; intros a Hroom Hlt; [done|].
  simpl in *. destruct c as [n|p n]; simpl in *.
  - destruct (decide (n = 0)) as [->|Hn].
    { unfold allocate. simpl. apply IH; [lia|done]. }
    rewrite allocate_fits by lia. simpl.
    destruct (IH (Allocator (block_size a) (allocated a + n * sizeT) (buffer a)
                    ({[Ptr (v_data (buffer a)) (allocated a)]}
                       ∪ allocated_objects a))) as [IH1 IH2];
      simpl; [lia|done|done].
  - unfold deallocate. case_decide; simpl; [|apply IH; [lia|done]].
    destruct (IH (Allocator (block_size a) (allocated a) (buffer a)
                    (allocated_objects a ∖ {[p]}))) as [IH1 IH2];
      simpl; [lia|done|done].
Qed.

(** ** Destruction *)

(** X8.  Deallocating a tracked pointer only moves its destructor call
    forward: [deallocate(p, n)] followed by the destructor of the
    allocator issues the same destructor calls as the destructor alone,
    each pointer once, and [p] is not among those of the destructor any
    more.  In both cases the storage of the buffer is released. *)
Theorem deallocate_then_destroy h a p n :
  let r := deallocate a p n in
  p ∈ allocated_objects a →
  r.2 ++ (CustomAllocator_destroy h r.1).2 ≡ₚ (CustomAllocator_destroy h a).2 ∧
  NoDup (r.2 ++ (CustomAllocator_destroy h r.1).2) ∧
  (p ∉ (CustomAllocator_destroy h r.1).2) ∧
  h_blocks (CustomAllocator_destroy h r.1).1 !! v_data (buffer a) = None.
Proof.
  intros r Hin. unfold r. rewrite (deallocate_tracked a p n Hin).
  unfold CustomAllocator_destroy, vector_destroy. simpl.
  assert (p ∉ allocated_objects a ∖ {[p]}) as Hout.
  { intros [_ Hne]%elem_of_difference. by apply Hne, elem_of_singleton. }
  assert ({[p]} ∪ allocated_objects a ∖ {[p]} = allocated_objects a) as Heq.
  { apply set_eq. intros q. rewrite elem_of_union, elem_of_difference,
      elem_of_singleton. split.
    - intros [->|[? _]]; done.
    - intros Hq. destruct (decide (q = p)); [by left|by right]. }
  pose proof (elements_union_singleton _ _ Hout) as Hperm.
  rewrite Heq in Hperm.
  split; [by symmetry|]. split; [|split].
  - rewrite <- Hperm. apply NoDup_elements.
  - by rewrite elem_of_elements.
  - by rewrite lookup_delete_eq.
Qed.

(** X9.  The converting constructor takes over the block size of the
    other allocator and nothing else.  When the heap is well formed, the
    buffer of the other allocator is live and
    [0 < block_size * sizeof(T) < 2^64] (the block size is not zero and
    the product does not wrap around [size_t]), the new allocator has
    its cursor at zero, tracks nothing, and has a buffer of
    [block_size * sizeof(T)] bytes in storage of its own, different from
    the buffer of the other allocator, which stays as it is. *)
Theorem CustomAllocator_rebind_own_buffer h (other : CustomAllocator) :
  let r := CustomAllocator_rebind sizeT recommend h (block_size other) in
  heap_wf h → is_Some (h_blocks h !! v_data (buffer other)) →
  0 < block_size other * sizeT < SIZE_MOD →
  (block_size r.2 = block_size other ∧ allocated r.2 = 0 ∧
   allocated_objects r.2 = ∅ ∧
   v_size (buffer r.2) = block_size other * sizeT) ∧
  buffer_live r.1 r.2 ∧
  v_data (buffer r.2) ≠ v_data (buffer other) ∧
  h_blocks r.1 !! v_data (buffer other) = h_blocks h !! v_data (buffer other).
Proof.
  intros r Hwf Hother Hblk.
  pose proof (CustomAllocator_new_dims sizeT recommend h (block_size other)) as Hd.
  destruct (CustomAllocator_new_fresh sizeT recommend h (block_size other))
    as [_ Hobj].
  pose proof (CustomAllocator_new_live h (block_size other) Hblk) as Hlive.
  apply dims_fields in Hd as (Hbs & Hal & Hszv).
  rewrite size_mul_small in Hszv by lia.
  destruct Hother as [sto Hsto].
  pose proof (map_Forall_lookup_1 _ _ _ _ Hwf Hsto) as Hrange.
  simpl in Hrange.
  split; [done|]. split; [done|].
  unfold r, CustomAllocator_rebind, expand. simpl.
  rewrite size_mul_small by lia. rewrite size_add_small by lia.
  rewrite N.add_0_l. rewrite vector_resize_grow by (simpl; lia). simpl.
  split; [lia|].
  rewrite lookup_insert_ne by lia. by rewrite lookup_delete_ne by lia.
Qed.

End AllocatorLifetime.

(** * Further properties of the container *)

Section ContainerLifetime.

Context {T : Type}.
Variable sizeT : N.
Variable recommend : N → N → N → N.
Variable show : T → string.

Implicit Types (h : heap T) (c : Container.CustomContainer) (vs : list T).
Implicit Types (a : CustomAllocator).

Lemma CustomContainer_new_holds h a :
  v_size (buffer a) ≠ 0 →
  let hc := Container.CustomContainer_new sizeT h a in
  Container.holds hc.1 hc.2 [] ∧ Container.data hc.2 = [] ∧
  block_size (Container.alloc hc.2) = block_size a ∧
  allocated (Container.alloc hc.2) = allocated a ∧
  allocated_objects (Container.alloc hc.2) = allocated_objects a ∧
  buffer (Container.alloc hc.2) =
    Vector (h_next h) (v_size (buffer a)) (v_size (buffer a)).
Proof.
  intros Hsz. unfold Container.CustomContainer_new, CustomAllocator_copy,
    vector_copy.
  rewrite (proj2 (N.eqb_neq _ _) Hsz). simpl.
  split; [|done]. split; [constructor|]. split; [constructor|]. simpl.
  split; [lia|]. eexists. rewrite lookup_insert_eq. split; [done|]. simpl. lia.
Qed.

(** X5.  A container built over a copy of an allocator whose buffer has
    room for the values takes them all, and then iteration and [display]
    give them back in the order of insertion; [size()] is their number
    and [empty()] tells whether there were none. *)
Theorem container_reads_back_in_order h a vs :
  let hc := Container.CustomContainer_new sizeT h a in
  0 < sizeT → v_size (buffer a) < SIZE_MOD →
  allocated a + N.of_nat (length vs) * sizeT ≤ v_size (buffer a) →
  ∃ h2 c2,
    Container.add_all sizeT recommend hc.1 hc.2 vs = Some (h2, c2) ∧
    Container.iterate h2 c2 = Some vs ∧
    Container.display show h2 c2 = Some (Container.render show vs) ∧
    Container.size c2 = N.of_nat (length vs) ∧
    Container.empty c2 = bool_decide (vs = []).
Proof.
  intros hc Hsz Hlt Hroom.
  destruct vs as [|v vs].
  { exists hc.1, hc.2. split; [done|].
    unfold hc, Container.CustomContainer_new, CustomAllocator_copy.
    by destruct (vector_copy _ _ _). }
  assert (v_size (buffer a) ≠ 0) as Hne by (simpl in Hroom; lia).
  destruct (CustomContainer_new_holds h a Hne)
    as (Hholds & Hdata & _ & Hal & _ & Hbuf).
  fold hc in Hholds, Hdata, Hal, Hbuf. clearbody hc.
  destruct (add_all_holds sizeT recommend (v :: vs) hc.1 hc.2 [])
    as (h2 & c2 & Hall & Hholds2 & _ & _ & _ & _ & Hlen2);
    [done|by rewrite Hbuf|done| |].
  { unfold Container.room_for. rewrite Hal, Hbuf. simpl in *. lia. }
  exists h2, c2. simpl in Hholds2.
  pose proof (holds_iterate _ _ _ Hholds2) as Hit.
  split; [done|]. split; [done|]. split; [|split].
  - unfold Container.display. by rewrite Hit.
  - unfold Container.size. by rewrite Hlen2, Hdata.
  - unfold Container.empty. rewrite Hdata in Hlen2. simpl in Hlen2.
    by destruct (Container.data c2).
Qed.

(** ** What [add] does to [data] and to the allocator *)

Lemma add_inv h c (v : T) h2 c2 :
  Container.add sizeT recommend h c v = Some (h2, c2) →
  let r := allocate sizeT recommend h (Container.alloc c) 1 in
  Container.alloc c2 = r.1.2 ∧
  Container.data c2 = Container.data c ++ [r.2].
Proof.
  unfold Container.add.
  destruct (allocate sizeT recommend h (Container.alloc c) 1) as [[h1 a1] p].
  destruct (construct_at sizeT h1 p v); [|done]. by intros [= <- <-].
Qed.

Lemma add_all_data_length vs h c h2 c2 :
  Container.add_all sizeT recommend h c vs = Some (h2, c2) →
  length (Container.data c2) = (length (Container.data c) + length vs)%nat.
Proof.
  revert h c. induction vs as [|v vs IH]; intros h c Hall; simpl in *.
  { injection Hall as _ <-. lia. }
  destruct (Container.add sizeT recommend h c v) as [[h1 c1]|] eqn:Hadd; [|done].
  apply add_inv in Hadd as [_ Hdata]. rewrite (IH _ _ Hall).
  rewrite Hdata, length_app. simpl. lia.
Qed.

(** X6.  [size()] counts the calls of [add] that returned, whether the
    buffer grew or not, and [empty()] holds exactly when [size()] is
    zero. *)
Theorem size_counts_adds vs h c h2 c2 :
  Container.add_all sizeT recommend h c vs = Some (h2, c2) →
  Container.size c2 = Container.size c + N.of_nat (length vs) ∧
  Container.empty c2 = (Container.size c2 =? 0) ∧
  Container.empty c = (Container.size c =? 0).
Proof.
  assert (∀ c', Container.empty c' = (Container.size c' =? 0)) as Hempty.
  { intros c'. unfold Container.empty, Container.size.
    by destruct (Container.data c'). }
  intros Hall. split; [|by split].
  unfold Container.size. rewrite (add_all_data_length _ _ _ _ _ Hall). lia.
Qed.

Lemma add_owns h c (v : T) h2 c2 :
  0 < sizeT → allocated (Container.alloc c) + sizeT < SIZE_MOD →
  Container.owns c →
  Container.add sizeT recommend h c v = Some (h2, c2) →
  Container.owns c2 ∧
  allocated (Container.alloc c2) = allocated (Container.alloc c) + sizeT.
Proof.
  intros Hsz Hlt [Hnd Hall] Hadd. apply add_inv in Hadd as [Ha Hdata].
  assert ((1:N) ≠ 0) as H1 by done.
  pose proof (allocate_result_off sizeT recommend h (Container.alloc c) 1 H1)
    as Hoff.
  pose proof (allocate_allocated_objects sizeT recommend h (Container.alloc c)
                1 H1) as Hobj.
  pose proof (allocate_allocated_no_wrap sizeT recommend h (Container.alloc c) 1)
    as Hal.
  rewrite N.mul_1_l in Hal. specialize (Hal Hlt).
  rewrite <- Ha in Hobj, Hal.
  set (p := (allocate sizeT recommend h (Container.alloc c) 1).2) in *.
  split; [|done]. unfold Container.owns. rewrite Hdata, Hobj, Hal. split.
  - apply NoDup_app. split; [done|]. split; [|apply NoDup_singleton].
    intros q Hq ->%list_elem_of_singleton.
    apply (proj1 (Forall_forall _ _) Hall) in Hq as [_ Hq]. lia.
  - apply Forall_app. split.
    + eapply Forall_impl; [done|]. simpl. intros q [Hin Hq].
      split; [|lia]. apply elem_of_union. by right.
    + apply Forall_singleton. split; [|lia].
      apply elem_of_union. left. by apply elem_of_singleton.
Qed.

Lemma add_all_owns vs h c h2 c2 :
  0 < sizeT →
  allocated (Container.alloc c) + N.of_nat (length vs) * sizeT < SIZE_MOD →
  Container.owns c →
  Container.add_all sizeT recommend h c vs = Some (h2, c2) →
  Container.owns c2.
Proof.
  intros Hsz. revert h c. induction vs as [|v vs IH]; intros h c Hlt Howns Hall.
  { simpl in Hall. by injection Hall as _ <-. }
  simpl in Hall, Hlt.
  destruct (Container.add sizeT recommend h c v) as [[h1 c1]|] eqn:Hadd; [|done].
  destruct (add_owns h c v h1 c1) as [Howns1 Hal1]; [done|lia|done..|].
  apply (IH h1 c1); [rewrite Hal1; lia|done..].
Qed.

Lemma destroy_loop (l : list pointer) a (ds : list pointer) :
  NoDup l → Forall (λ q, q ∈ allocated_objects a) l →
  foldl (λ acc p, let '(a', ds') := deallocate acc.1 p 1 in (a', acc.2 ++ ds'))
        (a, ds) l =
  (Allocator (block_size a) (allocated a) (buffer a)
     (allocated_objects a ∖ list_to_set l), ds ++ l).
Proof.
  revert a ds. induction l as [|p l IH]; intros a ds Hnd Hall.
  { simpl. rewrite app_nil_r. destruct a. simpl. f_equal. f_equal.
    apply set_eq. intros q. rewrite elem_of_difference.
    split; [intros Hq; split; [done|apply not_elem_of_empty]|by intros [? _]]. }
  apply NoDup_cons in Hnd as [Hp Hnd]. apply Forall_cons in Hall as [Hin Hall].
  simpl. rewrite deallocate_tracked by done. rewrite IH; [|done|].
  - simpl. rewrite <- app_assoc. simpl. f_equal. f_equal.
    apply set_eq. intros q.
    rewrite !elem_of_difference, elem_of_union, elem_of_singleton.
    split; [intros [[? ?] ?]|intros [? ?]]; repeat split; try done; tauto.
  - simpl. apply Forall_forall. intros q Hq. apply elem_of_difference. split.
    + by apply (proj1 (Forall_forall _ _) Hall).
    + by intros ->%elem_of_singleton.
Qed.

(** X7.  A container built over a copy of an allocator and filled by
    [add]: its destructor issues one destructor call for every stored
    pointer, in the order of insertion and no pointer twice, and takes
    them all out of the tracked set, so that the destructor of the
    allocator, which runs next, issues no call for any of them. *)
Theorem container_destroys_each_element_once h a vs h2 c2 :
  let hc := Container.CustomContainer_new sizeT h a in
  let d := Container.CustomContainer_destroy c2 in
  0 < sizeT → allocated a + N.of_nat (length vs) * sizeT < SIZE_MOD →
  Container.add_all sizeT recommend hc.1 hc.2 vs = Some (h2, c2) →
  d.2 = Container.data c2 ∧ length d.2 = length vs ∧ NoDup d.2 ∧
  allocated_objects d.1 =
    allocated_objects (Container.alloc c2) ∖ list_to_set (Container.data c2) ∧
  (∀ q, q ∈ Container.data c2 → q ∉ (CustomAllocator_destroy h2 d.1).2) ∧
  NoDup (Container.CustomContainer_delete h2 c2).2.
Proof.
  intros hc d Hsz Hlt Hall.
  assert (Container.data hc.2 = [] ∧
          allocated (Container.alloc hc.2) = allocated a) as [Hdata0 Hal0].
  { unfold hc, Container.CustomContainer_new, CustomAllocator_copy.
    by destruct (vector_copy _ _ _). }
  assert (Container.owns c2) as [Hnd Htracked].
  { apply (add_all_owns vs hc.1 hc.2 h2 c2); [done|by rewrite Hal0| |done].
    unfold Container.owns. rewrite Hdata0. split; constructor. }
  pose proof (add_all_data_length _ _ _ _ _ Hall) as Hlen.
  rewrite Hdata0 in Hlen. simpl in Hlen.
  assert (d = (Allocator (block_size (Container.alloc c2))
                 (allocated (Container.alloc c2)) (buffer (Container.alloc c2))
                 (allocated_objects (Container.alloc c2)
                    ∖ list_to_set (Container.data c2)),
               Container.data c2)) as Hd.
  { unfold d, Container.CustomContainer_destroy. rewrite destroy_loop; [done..|].
    eapply Forall_impl; [done|]. by intros q [? _]. }
  assert (∀ q, q ∈ Container.data c2 → q ∉ (CustomAllocator_destroy h2 d.1).2)
    as Hnot.
  { intros q Hq. rewrite Hd. unfold CustomAllocator_destroy. simpl.
    rewrite elem_of_elements, elem_of_difference, elem_of_list_to_set. tauto. }
  split; [by rewrite Hd|]. split; [by rewrite Hd|]. split; [by rewrite Hd|].
  split; [by rewrite Hd|]. split; [done|].
  unfold Container.CustomContainer_delete. fold d.
  destruct d as [a' ds] eqn:Ed. simpl in *.
  injection Hd as -> ->.
  unfold CustomAllocator_destroy in *. simpl in *.
  apply NoDup_app. split; [done|]. split; [done|apply NoDup_elements].
Qed.

End ContainerLifetime.

(** * The factorial loop *)

Section Factorial.

Local Open Scope Z_scope.

Lemma factorial_loop_succ (n : nat) :
  factorial_loop (Z.of_nat (S n)) =
  match factorial_loop (Z.of_nat n) with
  | Some f => int_mul f (Z.of_nat (S n))
  | None => None
  end.
Proof.
  unfold factorial_loop.
  replace (Z.of_nat (S n)) with (Z.of_nat n + 1) by lia.
  rewrite seqZ_app by lia. rewrite foldl_app. simpl.
  replace (1 + Z.of_nat n) with (Z.of_nat n + 1) by lia. done.
Qed.

Lemma fact_succ_Z (n : nat) :
  Z.of_nat (fact (S n)) = Z.of_nat (S n) * Z.of_nat (fact n).
Proof. simpl fact. lia. Qed.

Lemma fact_le_12 (n : nat) : (n ≤ 12)%nat → Z.of_nat (fact n) ≤ 479001600.
Proof.
  intros Hn. transitivity (Z.of_nat (fact 12)).
  - apply Nat2Z.inj_le, fact_le. lia.
  - rewrite !fact_succ_Z. simpl fact. lia.
Qed.

Lemma factorial_loop_fact (n : nat) :
  (n ≤ 12)%nat → factorial_loop (Z.of_nat n) = Some (Z.of_nat (fact n)).
Proof.
  induction n as [|n IH]; intros Hn; [done|].
  rewrite factorial_loop_succ, IH by lia.
  pose proof (fact_le_12 (S n) Hn) as Hle.
  unfold int_mul.
  replace (Z.of_nat (fact n) * Z.of_nat (S n)) with (Z.of_nat (fact (S n)))
    by (simpl fact; lia).
  rewrite (proj2 (Z.leb_le _ _)) by (unfold INT_MIN; lia).
  rewrite (proj2 (Z.leb_le _ _)) by (unfold INT_MAX; lia). done.
Qed.

Lemma factorial_loop_overflow (n : nat) :
  (13 ≤ n)%nat → factorial_loop (Z.of_nat n) = None.
Proof.
  induction n as [|n IH]; intros Hn; [lia|].
  rewrite factorial_loop_succ.
  destruct (decide (n = 12%nat)) as [->|Hne]; [by vm_compute|].
  by rewrite IH by lia.
Qed.

(** X10.  The factorial loop of [main] computes [i!] for every [i] up
    to 12, all the products being within the range of [int] (for a
    negative [i] the body does not run and the result is [0! = 1]); from
    13 on a product leaves the range of [int]. *)
Theorem factorial_loop_spec (i : Z) :
  factorial_loop i =
  if i <=? 12 then Some (Z.of_nat (fact (Z.to_nat i))) else None.
Proof.
  destruct (i <=? 12) eqn:Hi.
  - apply Z.leb_le in Hi. destruct (decide (0 ≤ i)) as [H0|H0].
    + rewrite <- (Z2Nat.id i) at 1 by lia. apply factorial_loop_fact. lia.
    + unfold factorial_loop. destruct i; try lia. done.
  - apply Z.leb_gt in Hi. rewrite <- (Z2Nat.id i) by lia.
    apply factorial_loop_overflow. lia.
Qed.

End Factorial.

(** * Growth and the degenerate block size *)

Section AllocatorGrowth.

Context {T : Type}.
Variable sizeT : N.
Variable recommend : N → N → N → N.

Implicit Types (h : heap T) (a : CustomAllocator) (n k m : N) (p q : pointer).
Implicit Types (cs : list call).

(** X11.  On a well-formed heap and an allocator whose buffer is live,
    with [n] not zero and neither [allocated + n * sizeof(T)] nor
    [buffer.size() + block_size * sizeof(T)] reaching [2^64]: a request
    that does not fit makes the buffer grow, and when the grown size
    exceeds the capacity of the vector the buffer moves: the result lies
    in new storage, the old storage is released, every pointer into it
    dangles, and the pointers tracked so far stay tracked all the
    same. *)
Theorem allocate_growth_releases_old_buffer h a n :
  let r := allocate sizeT recommend h a n in
  heap_wf h → buffer_live h a → n ≠ 0 →
  allocated a + n * sizeT < SIZE_MOD →
  v_size (buffer a) + block_size a * sizeT < SIZE_MOD →
  v_size (buffer a) < allocated a + n * sizeT →
  v_capacity (buffer a) < v_size (buffer a) + block_size a * sizeT →
  v_data (buffer r.1.2) ≠ v_data (buffer a) ∧
  p_block r.2 = v_data (buffer r.1.2) ∧
  h_blocks r.1.1 !! v_data (buffer a) = None ∧
  (∀ q, p_block q = v_data (buffer a) → load r.1.1 q = None) ∧
  allocated_objects a ⊆ allocated_objects r.1.2.
Proof.
  intros r Hwf (st & Hst & _ & _) Hn Hal Hsz Hfit Hcap.
  pose proof (map_Forall_lookup_1 _ _ _ _ Hwf Hst) as Hrange.
  simpl in Hrange.
  unfold r, allocate. rewrite (proj2 (N.eqb_neq _ _) Hn).
  rewrite size_mul_small by lia. rewrite (size_add_small (allocated a)) by lia.
  rewrite (proj2 (N.ltb_lt _ _) Hfit).
  unfold expand. rewrite size_mul_small by lia.
  rewrite size_add_small by lia. rewrite vector_resize_grow by done. simpl.
  assert (h_next h ≠ v_data (buffer a)) as Hne by lia.
  split; [done|]. split; [done|].
  assert (<[h_next h:=Storage
              (N.max (v_size (buffer a) + block_size a * sizeT)
                 (recommend (v_size (buffer a)) (v_capacity (buffer a))
                    (v_size (buffer a) + block_size a * sizeT)))
              (objects_below sizeT h (v_data (buffer a)) (v_size (buffer a)))]>
            (delete (v_data (buffer a)) (h_blocks h)) !! v_data (buffer a)
          = None) as Hgone.
  { rewrite lookup_insert_ne by done. apply lookup_delete_eq. }
  split; [done|]. split.
  - intros q Hq. unfold load. simpl. by rewrite Hq, Hgone.
  - apply union_subseteq_r.
Qed.

(** ** [block_size = 0] *)

Lemma run_zero_block (hs : heap T * CustomAllocator) cs :
  size_mul (block_size hs.2) sizeT = 0 → buffer hs.2 = vector_empty →
  (run sizeT recommend hs cs).1 = hs.1 ∧
  buffer (run sizeT recommend hs cs).2 = vector_empty ∧
  block_size (run sizeT recommend hs cs).2 = block_size hs.2.
Proof.
  revert hs. induction cs as [|c cs IH]; intros [h a] Hblk Hbuf; [done|].
  simpl in *.
  assert ((step sizeT recommend (h, a) c).1 = h ∧
          buffer (step sizeT recommend (h, a) c).2 = vector_empty ∧
          block_size (step sizeT recommend (h, a) c).2 = block_size a)
    as (H1 & H2 & H3).
  { destruct c as [n|p n]; simpl.
    - unfold allocate. destruct (n =? 0); [done|].
      unfold expand. rewrite Hbuf, Hblk. simpl.
      by destruct (0 <? _).
    - unfold deallocate. by case_decide. }
  destruct (IH (step sizeT recommend (h, a) c)) as (IH1 & IH2 & IH3);
    [by rewrite H3|done|].
  rewrite IH1, IH2, IH3. done.
Qed.

(** X12.  An allocator constructed with [block_size = 0] never gets a
    buffer: whatever is called on it, [buffer.size()] stays 0 and the
    heap stays as it was; every pointer [allocate] returns lies in the
    null block, and no object can be constructed there. *)
Theorem zero_block_size_never_usable h cs n (v : T) :
  let st := run sizeT recommend (CustomAllocator_new sizeT recommend h 0) cs in
  let r := allocate sizeT recommend st.1 st.2 n in
  heap_wf h →
  st.1 = h ∧ v_size (buffer st.2) = 0 ∧ block_size st.2 = 0 ∧
  r.1.1 = h ∧ p_block r.2 = 0%nat ∧
  construct_at sizeT r.1.1 r.2 v = None.
Proof.
  intros st r Hwf.
  assert (CustomAllocator_new sizeT recommend h 0
          = (h, Allocator 0 0 vector_empty ∅)) as Hnew.
  { unfold CustomAllocator_new, expand. by simpl. }
  unfold r, st. rewrite Hnew. clear r st.
  set (s0 := (h, Allocator 0 0 vector_empty ∅)).
  destruct (run_zero_block s0 cs) as (G1 & G2 & G3); [done..|].
  destruct (run_zero_block s0 (cs ++ [Allocate n])) as (H1 & H2 & _);
    [done..|].
  unfold run in H1, H2. rewrite foldl_app in H1, H2.
  fold (run sizeT recommend s0 cs) in H1, H2.
  set (st := run sizeT recommend s0 cs) in *.
  change (foldl (step sizeT recommend) st [Allocate n])
    with (allocate sizeT recommend st.1 st.2 n).1 in H1, H2.
  set (r := allocate sizeT recommend st.1 st.2 n) in *.
  simpl in H1, G1, G3.
  assert (p_block r.2 = 0%nat) as Hblock.
  { destruct (decide (n = 0)) as [->|Hn]; [done|].
    unfold r. rewrite allocate_result_block by done. fold r. by rewrite H2. }
  assert (h_blocks h !! 0%nat = None) as Hnull.
  { destruct (h_blocks h !! 0%nat) as [sto|] eqn:Hsto; [|done].
    pose proof (map_Forall_lookup_1 _ _ _ _ Hwf Hsto) as Hrange.
    simpl in Hrange. lia. }
  split; [done|]. split; [by rewrite G2|]. split; [done|].
  split; [done|]. split; [done|].
  unfold construct_at. by rewrite H1, Hblock, Hnull.
Qed.

End AllocatorGrowth.

(** * Concrete runs of the further properties *)

Lemma cursor_counts_requested_bytes_witness :
  (0 < 4 ∧ requested_bytes 4 sample_calls < SIZE_MOD) ∧
  let a :=
    (run 4 exact_fit (CustomAllocator_new (T:=Z) 4 exact_fit heap_empty 10)
       sample_calls).2 in
  block_size a = 10 ∧
  allocated a = requested_bytes 4 sample_calls ∧
  live_below a.
Proof.
  assert (0 < 4) as H1 by lia.
  assert (requested_bytes 4 sample_calls < SIZE_MOD) as H2 by (by vm_compute).
  split; [done|].
  exact (cursor_counts_requested_bytes 4 exact_fit heap_empty 10 sample_calls
           H1 H2).
Defined.

Lemma sample_calls_within_block : within_block 10 sample_calls.
Proof. unfold within_block, sample_calls. repeat constructor; lia. Defined.

Lemma run_capacity_formula_witness :
  (0 < 10 * 4 ∧ within_block 10 sample_calls ∧
   requested_bytes 4 sample_calls + 2 * (10 * 4) < SIZE_MOD) ∧
  let blk := 10 * 4 in
  let a :=
    (run 4 exact_fit (CustomAllocator_new (T:=Z) 4 exact_fit heap_empty 10)
       sample_calls).2 in
  v_size (buffer a) =
  blk * N.max 1 ((requested_bytes 4 sample_calls + blk - 1) / blk).
Proof.
  assert (0 < 10 * 4) as H1 by lia.
  assert (requested_bytes 4 sample_calls + 2 * (10 * 4) < SIZE_MOD) as H2
    by (by vm_compute).
  split; [by pose proof sample_calls_within_block|].
  exact (run_capacity_formula 4 exact_fit heap_empty 10 sample_calls
           H1 sample_calls_within_block H2).
Defined.

Lemma allocate_returns_usable_storage_witness :
  (0 < 4 ∧ within_block 10 sample_calls ∧ 0 < 3 ≤ 10 ∧ 2 < 3 ∧
   requested_bytes 4 sample_calls + 3 * 4 + 2 * (10 * 4) < SIZE_MOD) ∧
  let blk := 10 * 4 in
  let st :=
    run 4 exact_fit (CustomAllocator_new (T:=Z) 4 exact_fit heap_empty 10)
      sample_calls in
  let r := allocate 4 exact_fit st.1 st.2 3 in
  p_block r.2 = v_data (buffer r.1.2) ∧
  p_off r.2 + 3 * 4 ≤ v_size (buffer r.1.2) ∧
  is_Some (construct_at 4 r.1.1 (ptr_index 4 r.2 2) 7%Z).
Proof.
  assert (0 < 4) as H1 by lia.
  assert (0 < 3 ≤ 10) as H2 by lia.
  assert (2 < 3) as H3 by lia.
  assert (requested_bytes 4 sample_calls + 3 * 4 + 2 * (10 * 4) < SIZE_MOD)
    as H4 by (by vm_compute).
  split; [by pose proof sample_calls_within_block|].
  exact (allocate_returns_usable_storage 4 exact_fit heap_empty 10 sample_calls
           3 2 7%Z H1 sample_calls_within_block H2 H3 H4).
Defined.

Lemma requests_with_room_stay_in_place_witness :
  (allocated sample_allocator.2
     + requested_bytes 4 [Allocate 2; Deallocate (Ptr 1 0) 2; Allocate 8]
     ≤ v_size (buffer sample_allocator.2) ∧
   v_size (buffer sample_allocator.2) < SIZE_MOD) ∧
  (run 4 exact_fit (sample_allocator.1, sample_allocator.2)
     [Allocate 2; Deallocate (Ptr 1 0) 2; Allocate 8]).1 = sample_allocator.1 ∧
  buffer (run 4 exact_fit (sample_allocator.1, sample_allocator.2)
            [Allocate 2; Deallocate (Ptr 1 0) 2; Allocate 8]).2
    = buffer sample_allocator.2.
Proof.
  assert (allocated sample_allocator.2
     + requested_bytes 4 [Allocate 2; Deallocate (Ptr 1 0) 2; Allocate 8]
     ≤ v_size (buffer sample_allocator.2)) as H1 by (by vm_compute).
  assert (v_size (buffer sample_allocator.2) < SIZE_MOD) as H2
    by (by vm_compute).
  split; [done|].
  exact (requests_with_room_stay_in_place 4 exact_fit sample_allocator.1
           sample_allocator.2 _ H1 H2).
Defined.

Lemma container_reads_back_in_order_witness :
  (0 < 4 ∧ v_size (buffer sample_allocator.2) < SIZE_MOD ∧
   allocated sample_allocator.2 + N.of_nat (length ten_values) * 4
     ≤ v_size (buffer sample_allocator.2)) ∧
  let hc :=
    Container.CustomContainer_new 4 sample_allocator.1 sample_allocator.2 in
  ∃ h2 c2,
    Container.add_all 4 exact_fit hc.1 hc.2 ten_values = Some (h2, c2) ∧
    Container.iterate h2 c2 = Some ten_values ∧
    Container.display Container.show_int h2 c2 =
      Some (Container.render Container.show_int ten_values) ∧
    Container.size c2 = N.of_nat (length ten_values) ∧
    Container.empty c2 = bool_decide (ten_values = []).
Proof.
  assert (0 < 4) as H1 by lia.
  assert (v_size (buffer sample_allocator.2) < SIZE_MOD) as H2
    by (by vm_compute).
  assert (allocated sample_allocator.2 + N.of_nat (length ten_values) * 4
            ≤ v_size (buffer sample_allocator.2)) as H3 by (by vm_compute).
  split; [done|].
  exact (container_reads_back_in_order 4 exact_fit Container.show_int
           sample_allocator.1 sample_allocator.2 ten_values H1 H2 H3).
Defined.

Lemma size_counts_adds_witness :
  ∃ h2 c2,
    Container.add_all 4 exact_fit sample_container.1 sample_container.2
      eleven_values = Some (h2, c2) ∧
    Container.size c2 =
      Container.size sample_container.2 + N.of_nat (length eleven_values) ∧
    Container.empty c2 = (Container.size c2 =? 0) ∧
    Container.empty sample_container.2 =
      (Container.size sample_container.2 =? 0).
Proof.
  destruct (Container.add_all 4 exact_fit sample_container.1 sample_container.2
              eleven_values) as [[h2 c2]|] eqn:Hall; [|by vm_compute in Hall].
  exists h2, c2. split; [done|].
  exact (size_counts_adds 4 exact_fit eleven_values _ _ h2 c2 Hall).
Defined.

Lemma container_destroys_each_element_once_witness :
  (0 < 4 ∧
   allocated sample_allocator.2 + N.of_nat (length eleven_values) * 4
     < SIZE_MOD) ∧
  ∃ h2 c2,
    Container.add_all 4 exact_fit
      (Container.CustomContainer_new 4 sample_allocator.1 sample_allocator.2).1
      (Container.CustomContainer_new 4 sample_allocator.1 sample_allocator.2).2
      eleven_values = Some (h2, c2) ∧
    let d := Container.CustomContainer_destroy c2 in
    d.2 = Container.data c2 ∧ length d.2 = length eleven_values ∧ NoDup d.2 ∧
    allocated_objects d.1 =
      allocated_objects (Container.alloc c2)
        ∖ list_to_set (Container.data c2) ∧
    (∀ q, q ∈ Container.data c2 → q ∉ (CustomAllocator_destroy h2 d.1).2) ∧
    NoDup (Container.CustomContainer_delete h2 c2).2.
Proof.
  assert (0 < 4) as H1 by lia.
  assert (allocated sample_allocator.2 + N.of_nat (length eleven_values) * 4
            < SIZE_MOD) as H2 by (by vm_compute).
  split; [done|].
  destruct (Container.add_all 4 exact_fit
      (Container.CustomContainer_new 4 sample_allocator.1 sample_allocator.2).1
      (Container.CustomContainer_new 4 sample_allocator.1 sample_allocator.2).2
      eleven_values) as [[h2 c2]|] eqn:Hall; [|by vm_compute in Hall].
  exists h2, c2. split; [done|].
  exact (container_destroys_each_element_once 4 exact_fit sample_allocator.1
           sample_allocator.2 eleven_values h2 c2 H1 H2 Hall).
Defined.

Lemma deallocate_then_destroy_witness :
  Ptr 1 0 ∈ allocated_objects
    (allocate 4 exact_fit sample_allocator.1 sample_allocator.2 1).1.2 ∧
  let h := (allocate 4 exact_fit sample_allocator.1 sample_allocator.2 1).1.1 in
  let a := (allocate 4 exact_fit sample_allocator.1 sample_allocator.2 1).1.2 in
  let r := deallocate a (Ptr 1 0) 1 in
  r.2 ++ (CustomAllocator_destroy h r.1).2 ≡ₚ (CustomAllocator_destroy h a).2 ∧
  NoDup (r.2 ++ (CustomAllocator_destroy h r.1).2) ∧
  (Ptr 1 0 ∉ (CustomAllocator_destroy h r.1).2) ∧
  h_blocks (CustomAllocator_destroy h r.1).1 !! v_data (buffer a) = None.
Proof.
  assert (Ptr 1 0 ∈ allocated_objects
    (allocate 4 exact_fit sample_allocator.1 sample_allocator.2 1).1.2) as Hin
    by (by vm_compute).
  split; [exact Hin|].
  exact (deallocate_then_destroy _ _ (Ptr 1 0) 1 Hin).
Defined.

Lemma CustomAllocator_rebind_own_buffer_witness :
  (heap_wf sample_allocator.1 ∧
   is_Some (h_blocks sample_allocator.1 !! v_data (buffer sample_allocator.2)) ∧
   0 < block_size sample_allocator.2 * 8 < SIZE_MOD) ∧
  let other := sample_allocator.2 in
  let r :=
    CustomAllocator_rebind 8 exact_fit sample_allocator.1 (block_size other) in
  (block_size r.2 = block_size other ∧ allocated r.2 = 0 ∧
   allocated_objects r.2 = ∅ ∧
   v_size (buffer r.2) = block_size other * 8) ∧
  buffer_live r.1 r.2 ∧
  v_data (buffer r.2) ≠ v_data (buffer other) ∧
  h_blocks r.1 !! v_data (buffer other)
    = h_blocks sample_allocator.1 !! v_data (buffer other).
Proof.
  assert (heap_wf sample_allocator.1) as H1
    by (unfold heap_wf; apply (bool_decide_unpack _); by vm_compute).
  assert (is_Some (h_blocks sample_allocator.1
                     !! v_data (buffer sample_allocator.2))) as H2
    by (eexists; vm_compute; reflexivity).
  assert (0 < block_size sample_allocator.2 * 8 < SIZE_MOD) as H3
    by (split; by vm_compute).
  split; [done|].
  exact (CustomAllocator_rebind_own_buffer 8 exact_fit sample_allocator.1
           sample_allocator.2 H1 H2 H3).
Defined.

Lemma allocate_growth_releases_old_buffer_witness :
  let h := (Container.CustomContainer_new (T:=Z) 4 sample_allocator.1
              sample_allocator.2).1 in
  let a := Container.alloc
             (Container.CustomContainer_new (T:=Z) 4 sample_allocator.1
                sample_allocator.2).2 in
  (heap_wf h ∧ buffer_live h a ∧ 11 ≠ 0 ∧
   allocated a + 11 * 4 < SIZE_MOD ∧
   v_size (buffer a) + block_size a * 4 < SIZE_MOD ∧
   v_size (buffer a) < allocated a + 11 * 4 ∧
   v_capacity (buffer a) < v_size (buffer a) + block_size a * 4) ∧
  let r := allocate 4 libstdcxx_check_len h a 11 in
  v_data (buffer r.1.2) ≠ v_data (buffer a) ∧
  p_block r.2 = v_data (buffer r.1.2) ∧
  h_blocks r.1.1 !! v_data (buffer a) = None ∧
  (∀ q, p_block q = v_data (buffer a) → load r.1.1 q = None) ∧
  allocated_objects a ⊆ allocated_objects r.1.2.
Proof.
  intros h a.
  assert (heap_wf h) as H1
    by (unfold heap_wf; apply (bool_decide_unpack _); by vm_compute).
  assert (buffer_live h a) as H2.
  { eexists. split; [vm_compute; reflexivity|]. split; by vm_compute. }
  assert ((11:N) ≠ 0) as H3 by lia.
  assert (allocated a + 11 * 4 < SIZE_MOD) as H4 by (by vm_compute).
  assert (v_size (buffer a) + block_size a * 4 < SIZE_MOD) as H5
    by (by vm_compute).
  assert (v_size (buffer a) < allocated a + 11 * 4) as H6 by (by vm_compute).
  assert (v_capacity (buffer a) < v_size (buffer a) + block_size a * 4) as H7
    by (by vm_compute).
  split; [done|].
  exact (allocate_growth_releases_old_buffer 4 libstdcxx_check_len h a 11
           H1 H2 H3 H4 H5 H6 H7).
Defined.

Lemma zero_block_size_never_usable_witness :
  heap_wf sample_allocator.1 ∧
  let st :=
    run 4 exact_fit (CustomAllocator_new 4 exact_fit sample_allocator.1 0)
      sample_calls in
  let r := allocate 4 exact_fit st.1 st.2 1 in
  st.1 = sample_allocator.1 ∧ v_size (buffer st.2) = 0 ∧ block_size st.2 = 0 ∧
  r.1.1 = sample_allocator.1 ∧ p_block r.2 = 0%nat ∧
  construct_at 4 r.1.1 r.2 5%Z = None.
Proof.
  assert (heap_wf sample_allocator.1) as H1
    by (unfold heap_wf; apply (bool_decide_unpack _); by vm_compute).
  split; [done|].
  exact (zero_block_size_never_usable 4 exact_fit sample_allocator.1
           sample_calls 1 5%Z H1).
Defined.
